(** * wfs-client: version negotiation, request construction and
      capabilities mapping

    A shallow embedding of [lib/index.js] (class [Client]) and of
    [lib/versions/1.0.0.js] (the mapping tables of protocol version 1.0.0),
    followed by the properties of the design document that concern them.

    Conventions.
    - A JavaScript value that is "a string or [undefined]/[null]" is an
      [option string]; [None] is [undefined] (or [null] where the source
      says so).  Such a value is falsy when it is [None] or [Some ""].
    - An object used as a dictionary of query parameters is a
      [gmap string (option string)]: a key bound to [None] is an own
      property whose value is [undefined].
    - [throw] is the [Throw] completion; an [async] method is a function
      from the state (the client object and the log of requests sent so
      far) to a completion and a new state.  The recursion of
      [_negociateVersion] is bounded by a fuel argument; [None] means the
      fuel ran out, which is not a behaviour of the program.
    - The npm package [semver] is an interface ([Semver]) with the laws the
      development relies on ([SemverLaws]); [core_semver] is an
      implementation of it for plain [MAJOR.MINOR.PATCH] strings.
    - The function [parse] of the Node module [url] is an interface too
      ([Url]); [scheme_url] is an implementation of it. *)

From Stdlib Require Import Ascii String NArith Lia.
From stdpp Require Import base option strings gmap list.

Local Open Scope string_scope.
Set Warnings "-register-all".

(** ** JavaScript preliminaries *)

(** The exceptions that can leave the modelled code. [Error] and
    [TypeError] carry their message; [TransportFailure] stands for whatever
    [got] or [xml.parse] rejects with. *)
Inductive exn : Type :=
| Error (message : string)
| TypeError (message : string)
| TransportFailure (reason : string).

Inductive completion (A : Type) : Type :=
| Normal (a : A)
| Throw (e : exn).
Arguments Normal {A} a.
Arguments Throw {A} e.

Definition cbind {A B} (c : completion A) (k : A → completion B) : completion B :=
  match c with
  | Normal a => k a
  | Throw e => Throw e
  end.

(** Truthiness of a string-or-undefined value. *)
Definition truthy (v : option string) : bool :=
  match v with
  | None => false
  | Some s => negb (String.eqb s "")
  end.

(** String conversion in a concatenation: ['...' + v]. *)
Definition to_string (v : option string) : string :=
  match v with
  | None => "undefined"
  | Some s => s
  end.

(** lodash [findLast(array, predicate)]: scans from the last element to the
    first and returns the first element the predicate accepts, [undefined]
    when there is none.  An exception of the predicate aborts the scan. *)
Fixpoint find_from {A} (predicate : A → completion bool) (l : list A)
  : completion (option A) :=
  match l with
  | [] => Normal None
  | x :: l' =>
      match predicate x with
      | Throw e => Throw e
      | Normal true => Normal (Some x)
      | Normal false => find_from predicate l'
      end
  end.

Definition findLast {A} (array : list A) (predicate : A → completion bool)
  : completion (option A) :=
  find_from predicate (rev array).

(** The own properties of [Object.prototype]: every object literal inherits
    them, and the [in] operator sees inherited properties. *)
Definition Object_prototype_keys : list string :=
  [ "constructor"; "__defineGetter__"; "__defineSetter__"; "hasOwnProperty";
    "__lookupGetter__"; "__lookupSetter__"; "isPrototypeOf";
    "propertyIsEnumerable"; "toString"; "valueOf"; "__proto__";
    "toLocaleString" ].

(** ** The semver package *)

(** [SemVer_new s] is [new SemVer(s)] ([None]: the constructor throws
    [TypeError('Invalid Version: ' + s)]); [SemVer_compare a b] is
    [a.compare(b)], one of -1, 0, 1; [semver_valid s] tells whether
    [semver.valid(s)] is not [null]. *)
Class Semver : Type := {
  SemVer : Type;
  SemVer_new : string → option SemVer;
  SemVer_compare : SemVer → SemVer → comparison;
  semver_valid : string → bool
}.

Section SemverFunctions.
Context {sv : Semver}.

(** [new SemVer(version)] on a value that may be [undefined]. *)
Definition new_SemVer (version : option string) : completion SemVer :=
  match version with
  | None => Throw (TypeError "Invalid Version: undefined")
  | Some s =>
      match SemVer_new s with
      | Some x => Normal x
      | None => Throw (TypeError ("Invalid Version: " +:+ s))
      end
  end.

(** [compare(a, b) = new SemVer(a).compare(new SemVer(b))]. *)
Definition semver_compare (a b : option string) : completion comparison :=
  cbind (new_SemVer a) (λ x,
  cbind (new_SemVer b) (λ y,
  Normal (SemVer_compare x y))).

(** [gt(a, b) = compare(a, b) > 0] and [lt(a, b) = compare(a, b) < 0]. *)
Definition semver_gt (a b : option string) : completion bool :=
  cbind (semver_compare a b) (λ c,
  Normal (match c with Gt => true | _ => false end)).

Definition semver_lt (a b : option string) : completion bool :=
  cbind (semver_compare a b) (λ c,
  Normal (match c with Lt => true | _ => false end)).

End SemverFunctions.

(** *** Plain [MAJOR.MINOR.PATCH] versions *)

Definition MAX_SAFE_INTEGER : N := 9007199254740991.
Definition MAX_LENGTH : nat := 256.

Definition digit_of (c : ascii) : option N :=
  let n := N_of_ascii c in
  if (48 <=? n)%N && (n <=? 57)%N then Some (n - 48)%N else None.

Fixpoint digits_value (acc : N) (s : string) : option N :=
  match s with
  | EmptyString => Some acc
  | String c s' =>
      match digit_of c with
      | Some d => digits_value (10 * acc + d)%N s'
      | None => None
      end
  end.

(** A numeric identifier, [0|[1-9]\d*], not above [MAX_SAFE_INTEGER]. *)
Definition numeric_identifier (s : string) : option N :=
  match s with
  | EmptyString => None
  | String c s' =>
      if Ascii.eqb c "0" && negb (String.eqb s' "") then None
      else
        match digits_value 0 s with
        | Some n => if (n <=? MAX_SAFE_INTEGER)%N then Some n else None
        | None => None
        end
  end.

(** [s.split(sep)] for a one-character separator. *)
Fixpoint split_on (sep : ascii) (s : string) : list string :=
  match s with
  | EmptyString => [EmptyString]
  | String c s' =>
      if Ascii.eqb c sep then EmptyString :: split_on sep s'
      else
        match split_on sep s' with
        | [] => [String c EmptyString]
        | w :: ws => String c w :: ws
        end
  end.

(** The three numbers of a plain version string: no [v] prefix, no
    prerelease tag, no build metadata. *)
Definition core_version (s : string) : option (N * N * N) :=
  if (MAX_LENGTH <? String.length s)%nat then None
  else
    match split_on "." s with
    | [a; b; c] =>
        match numeric_identifier a, numeric_identifier b, numeric_identifier c with
        | Some major, Some minor, Some patch => Some (major, minor, patch)
        | _, _, _ => None
        end
    | _ => None
    end.

(** [compareMain]: major, then minor, then patch, numerically. *)
Definition compare_core (a b : N * N * N) : comparison :=
  let '(a1, a2, a3) := a in
  let '(b1, b2, b3) := b in
  match (a1 ?= b1)%N with
  | Eq => match (a2 ?= b2)%N with
          | Eq => (a3 ?= b3)%N
          | c => c
          end
  | c => c
  end.

(** The package restricted to plain versions; every other string is
    rejected. *)
Definition core_semver : Semver := {|
  SemVer := N * N * N;
  SemVer_new := core_version;
  SemVer_compare := compare_core;
  semver_valid := λ s, bool_decide (is_Some (core_version s))
|}.

(** What the development assumes of the package. *)
Class SemverLaws (sv : Semver) : Prop := {
  (** a string [semver.valid] accepts is accepted by the constructor *)
  valid_new : ∀ s, semver_valid s = true → is_Some (SemVer_new s);
  (** the empty string is not a version *)
  valid_nonempty : semver_valid "" = false;
  (** no property name of [Object.prototype] is a version *)
  valid_not_prototype_key : ∀ k, k ∈ Object_prototype_keys → semver_valid k = false;
  (** [compare] is a total preorder on parsed versions *)
  compare_refl : ∀ x, SemVer_compare x x = Eq;
  compare_antisym : ∀ x y, SemVer_compare y x = CompOpp (SemVer_compare x y);
  compare_trans : ∀ x y z,
    SemVer_compare x y ≠ Gt → SemVer_compare y z ≠ Gt → SemVer_compare x z ≠ Gt;
  (** plain versions are valid and are ordered by their three numbers *)
  core_valid : ∀ s, is_Some (core_version s) → semver_valid s = true;
  core_compare : ∀ a b ta tb x y,
    core_version a = Some ta → core_version b = Some tb →
    SemVer_new a = Some x → SemVer_new b = Some y →
    SemVer_compare x y = compare_core ta tb
}.

(** ** Parsed XML documents *)

(** What [xml.parse] returns, as far as the client looks at it: an
    element has a local name, a namespace URI, attributes, a text content
    and child elements; a document is its root element. *)
Inductive Element : Type :=
| mkElement (name : string) (namespace : string)
    (attributes : list (string * string)) (text : string)
    (children : list Element).

Definition name (e : Element) : string :=
  match e with mkElement n _ _ _ _ => n end.
Definition namespace (e : Element) : string :=
  match e with mkElement _ u _ _ _ => u end.
Definition attributes (e : Element) : list (string * string) :=
  match e with mkElement _ _ a _ _ => a end.
Definition text (e : Element) : string :=
  match e with mkElement _ _ _ t _ => t end.
Definition children (e : Element) : list Element :=
  match e with mkElement _ _ _ _ c => c end.

Fixpoint assoc {A} (k : string) (l : list (string * A)) : option A :=
  match l with
  | [] => None
  | (k', v) :: l' => if String.eqb k' k then Some v else assoc k l'
  end.

(** [node.attr(n) ? node.attr(n).value() : null] *)
Definition attr (n : string) (node : Element) : option string :=
  assoc n (attributes node).

(** ** The client *)

(** [supportedVersions] is an object literal with these three own keys, in
    this order; [supportedVersionsKeys = Object.keys(supportedVersions)]. *)
Definition supportedVersionsKeys : list string := ["1.0.0"; "1.1.0"; "2.0.0"].

(** [k in supportedVersions]: own or inherited property. *)
Definition in_supportedVersions (k : string) : bool :=
  bool_decide (k ∈ supportedVersionsKeys) || bool_decide (k ∈ Object_prototype_keys).

(** The [query] of a request: parameter names to values. *)
Abbreviation Query := (gmap string (option string)).

Record Request : Type := {
  req_url : string;
  req_query : Query
}.

(** The answer to a request, after [xml.parse]: a document, or the
    rejection of [got] or of the parser. *)
Inductive Response : Type :=
| Parsed (root : Element)
| Rejected (reason : string).

(** A server answers a request knowing the requests it has received
    before, most recent first. *)
Definition Server : Type := list Request → Request → Response.

(** [require('url').parse(u).protocol]: the scheme of [u] with its colon,
    in lower case, [None] ([null]) when [u] has none. *)
Class Url : Type := {
  parseUrl_protocol : string → option string
}.

(** The implementation used on sample inputs: the longest prefix of
    letters, digits, [.], [+] and [-], when it is not empty and a colon
    follows it. *)
Definition scheme_char (c : ascii) : bool :=
  let n := N_of_ascii c in
  ((48 <=? n)%N && (n <=? 57)%N) || ((65 <=? n)%N && (n <=? 90)%N) ||
  ((97 <=? n)%N && (n <=? 122)%N) || (n =? 43)%N || (n =? 45)%N || (n =? 46)%N.

Definition lower_char (c : ascii) : ascii :=
  let n := N_of_ascii c in
  if (65 <=? n)%N && (n <=? 90)%N then ascii_of_N (n + 32) else c.

Fixpoint scheme_of (s : string) : option string :=
  match s with
  | EmptyString => None
  | String c s' =>
      if Ascii.eqb c ":" then Some ":"
      else if scheme_char c then
        match scheme_of s' with
        | Some p => Some (String (lower_char c) p)
        | None => None
        end
      else None
  end.

Definition scheme_url : Url := {|
  parseUrl_protocol := λ u,
    match scheme_of u with
    | Some ":" => None
    | p => p
    end
|}.

(** The values of the table [Agent], and [Object], which the table
    inherits under the key [constructor]. *)
Inductive AgentClass : Type :=
| HttpAgent
| HttpsAgent
| ObjectConstructor.

(** [Agent[protocol]] when it can be called with [new]: the own keys
    [http:] and [https:], and the inherited [constructor]; every other key
    is [undefined], a method or an object, and [new] on it throws. *)
Definition Agent_lookup (protocol : option string) : option AgentClass :=
  if String.eqb (to_string protocol) "http:" then Some HttpAgent
  else if String.eqb (to_string protocol) "https:" then Some HttpsAgent
  else if String.eqb (to_string protocol) "constructor" then Some ObjectConstructor
  else None.

(** [new Agent[protocol]({maxSockets, keepAlive})] *)
Record Agent : Type := {
  agent_class : AgentClass;
  agent_maxSockets : option N;
  agent_keepAlive : option bool
}.

Record Options : Type := {
  opt_version : option string;
  opt_queryStringToAppend : option Query;
  opt_maxSockets : option N;
  opt_keepAlive : option bool
}.

Record Client : Type := {
  url : string;
  queryStringToAppend : Query;
  version : option string;
  agent : option Agent
}.

(** Truthiness of a number-or-undefined and of a boolean-or-undefined. *)
Definition truthy_number (v : option N) : bool :=
  match v with
  | None => false
  | Some n => negb (n =? 0)%N
  end.

Definition truthy_boolean (v : option bool) : bool :=
  match v with
  | None => false
  | Some b => b
  end.

(** [new Client(url, options)].  The field [options] of the object (user
    agent and timeout) configures the transport only and is left out. *)
Definition Client_new {U : Url} (url : option string) (options : Options)
  : completion Client :=
  if negb (truthy url) then Throw (TypeError "URL is required!")
  else
    let queryStringToAppend := default ∅ (opt_queryStringToAppend options) in
    cbind
      (if truthy (opt_version options) then
         if negb (in_supportedVersions (to_string (opt_version options))) then
           Throw (Error "Version not supported by client")
         else Normal (opt_version options)
       else Normal None)
      (λ version,
    cbind
      (if truthy_number (opt_maxSockets options) || truthy_boolean (opt_keepAlive options)
       then
         let protocol := parseUrl_protocol (to_string url) in
         match Agent_lookup protocol with
         | Some class =>
             Normal (Some {| agent_class := class;
                             agent_maxSockets := opt_maxSockets options;
                             agent_keepAlive := opt_keepAlive options |})
         | None => Throw (TypeError "Agent[protocol] is not a constructor")
         end
       else Normal None)
      (λ agent,
    Normal {| url := to_string url;
              queryStringToAppend := queryStringToAppend;
              version := version;
              agent := agent |})).

(** The state the methods run on: the client object and the requests sent
    so far, most recent first. *)
Record State : Type := {
  this : Client;
  sent : list Request
}.

Definition M (A : Type) : Type := State → option (completion A * State).

Definition ret {A} (a : A) : M A := λ st, Some (Normal a, st).
Definition throw {A} (e : exn) : M A := λ st, Some (Throw e, st).
Definition bind {A B} (m : M A) (k : A → M B) : M B :=
  λ st, match m st with
        | None => None
        | Some (Normal a, st') => k a st'
        | Some (Throw e, st') => Some (Throw e, st')
        end.
Definition lift {A} (c : completion A) : M A := λ st, Some (c, st).

Notation "'let*' x ':=' m 'in' k" := (bind m (λ x, k))
  (at level 10, x name, m at level 100, k at level 200).

Definition set_version (v : option string) : M unit :=
  λ st, Some (Normal (),
              {| this := {| url := url (this st);
                            queryStringToAppend := queryStringToAppend (this st);
                            version := v;
                            agent := agent (this st) |};
                 sent := sent st |}).

(** [{service: 'WFS', ...this.queryStringToAppend, ...query}]: a later
    spread overwrites the keys it shares with what precedes it.  The union
    of maps keeps the binding of its left operand. *)
Definition build_query (this : Client) (query : Query) : Query :=
  query ∪ (queryStringToAppend this ∪ {[ "service" := Some "WFS" ]}).

Section Client.
Context {sv : Semver}.
Variable server : Server.

(** [_request(query)] *)
Definition _request (query : Query) : M Element :=
  λ st,
    let request := {| req_url := url (this st);
                      req_query := build_query (this st) query |} in
    let st' := {| this := this st; sent := request :: sent st |} in
    match server (sent st) request with
    | Parsed xmlDoc => Some (Normal xmlDoc, st')
    | Rejected reason => Some (Throw (TransportFailure reason), st')
    end.

(** [{request: 'GetCapabilities', version}] *)
Definition GetCapabilities (version : option string) : Query :=
  {[ "request" := Some "GetCapabilities"; "version" := version ]}.

(** [_negociateVersion(candidateVersion)] *)
Fixpoint _negociateVersion (fuel : nat) (candidateVersion : option string) : M string :=
  match fuel with
  | O => λ _, None
  | S fuel =>
      let* capabilities := _request (GetCapabilities candidateVersion) in
      if String.eqb (name capabilities) "WFS_Capabilities" then
        let rootNode := capabilities in
        match attr "version" rootNode with
        | Some detectedVersion =>
            if negb (truthy (Some detectedVersion)) || negb (semver_valid detectedVersion)
            then throw (Error "Unable to read version in Capabilities")
            else if bool_decide (Some detectedVersion = candidateVersion)
            then ret detectedVersion
            else
              let* gt := lift (semver_gt (Some detectedVersion) candidateVersion) in
              if gt : bool then
                throw (Error ("Version negociation has failed. Lowest version supported by server is "
                              +:+ detectedVersion +:+ " but candidateVersion was "
                              +:+ to_string candidateVersion))
              else if in_supportedVersions detectedVersion then ret detectedVersion
              else
                let* nextCandidateVersion :=
                  lift (findLast supportedVersionsKeys (λ supportedVersion,
                          semver_lt (Some supportedVersion) (Some detectedVersion))) in
                _negociateVersion fuel nextCandidateVersion
        | None => throw (Error "Unable to read version in Capabilities")
        end
      else
        let* nextCandidateVersion :=
          lift (findLast supportedVersionsKeys (λ supportedVersion,
                  semver_lt (Some supportedVersion) candidateVersion)) in
        if truthy nextCandidateVersion then _negociateVersion fuel nextCandidateVersion
        else throw (Error "Version negociation has failed (recovery mode)")
  end.

(** [_ensureVersion()] *)
Definition _ensureVersion (fuel : nat) : M (option string) :=
  let* _ :=
    (λ st,
       if negb (truthy (version (this st))) then
         (let* v := _negociateVersion fuel (last supportedVersionsKeys) in
          set_version (Some v)) st
       else ret () st) in
  λ st, ret (version (this st)) st.

End Client.

(** ** Plain objects *)

(** The values a mapped capabilities document is made of.  An object keeps
    its properties in insertion order. *)
Inductive jsval : Type :=
| JUndefined
| JString (s : string)
| JArray (items : list jsval)
| JObject (properties : list (string * jsval)).

Definition js_truthy (v : jsval) : bool :=
  match v with
  | JUndefined => false
  | JString s => negb (String.eqb s "")
  | JArray _ | JObject _ => true
  end.

(** [a || b] *)
Definition js_or (a b : jsval) : jsval := if js_truthy a then a else b.

(** [o[k] = v] on the property list of an object. *)
Fixpoint set_prop (k : string) (v : jsval) (props : list (string * jsval))
  : list (string * jsval) :=
  match props with
  | [] => [(k, v)]
  | (k', v') :: props' =>
      if String.eqb k' k then (k', v) :: props' else (k', v') :: set_prop k v props'
  end.

(** [o.k] for a property [k] that strings and arrays do not have. *)
Definition js_member (o : jsval) (k : string) : completion jsval :=
  match o with
  | JUndefined => Throw (TypeError ("Cannot read property '" +:+ k +:+ "' of undefined"))
  | JObject props => Normal (default JUndefined (assoc k props))
  | JString _ | JArray _ => Normal JUndefined
  end.

(** Computations of the mapper: [None] when the fuel ran out. *)
Definition rbind {A B} (r : option (completion A)) (k : A → option (completion B))
  : option (completion B) :=
  match r with
  | None => None
  | Some (Throw e) => Some (Throw e)
  | Some (Normal a) => k a
  end.

Fixpoint rmap {A B} (f : A → option (completion B)) (l : list A)
  : option (completion (list B)) :=
  match l with
  | [] => Some (Normal [])
  | x :: l' =>
      rbind (f x) (λ y, rbind (rmap f l') (λ ys, Some (Normal (y :: ys))))
  end.

(** ** The document mapper *)

Module xml.

(** One rule of a mapping table.  In the source a rule is written
    [selector: {dest, multi, type}], or [selector: 'dest'] for a single text
    value. *)
Record FieldMapping : Type := {
  selector : string;
  dest : string;
  multi : bool;
  type : option string
}.

Definition field (selector dest : string) : FieldMapping :=
  {| selector := selector; dest := dest; multi := false; type := None |}.

(** Modelled from the spec: the selectors of the tables have the shape
    [./p:a/q:b]; a step [p:a] selects the child elements of local name [a]
    in the namespace bound to [p].  A prefix without binding is a
    configuration error. *)
Definition compile_step (ns : list (string * string)) (s : string)
  : completion (string * string) :=
  match split_on ":" s with
  | [prefix; local] =>
      match assoc prefix ns with
      | Some uri => Normal (uri, local)
      | None => Throw (Error ("Undefined namespace prefix " +:+ prefix))
      end
  | _ => Throw (Error ("Invalid expression " +:+ s))
  end.

Fixpoint compile_steps (ns : list (string * string)) (steps : list string)
  : completion (list (string * string)) :=
  match steps with
  | [] => Normal []
  | s :: steps' =>
      cbind (compile_step ns s) (λ c,
      cbind (compile_steps ns steps') (λ cs, Normal (c :: cs)))
  end.

Definition compile_selector (ns : list (string * string)) (selector : string)
  : completion (list (string * string)) :=
  match split_on "/" selector with
  | "." :: steps => compile_steps ns steps
  | _ => Throw (Error ("Invalid expression " +:+ selector))
  end.

Definition matches_step (s : string * string) (e : Element) : bool :=
  String.eqb (namespace e) s.1 && String.eqb (name e) s.2.

(** Modelled from the spec: the nodes a compiled selector matches below
    the context nodes, in document order. *)
Fixpoint select_path (path : list (string * string)) (context : list Element)
  : list Element :=
  match path with
  | [] => context
  | s :: path' =>
      select_path path' (concat (map (λ c, filter (λ e, Is_true (matches_step s e)) (children c)) context))
  end.

Section Mapper.
Variable ns : list (string * string).
Variable types : list (string * list FieldMapping).

(** Modelled from the spec: the value of one matched node, its text content
    or, with a nested schema, the object built from it. *)
Definition build_value (build : Element → string → option (completion jsval))
    (m : FieldMapping) (e : Element) : option (completion jsval) :=
  match type m with
  | None => Some (Normal (JString (text e)))
  | Some t => build e t
  end.

(** Modelled from the spec: one key per rule; a single rule takes the
    first match and leaves the key out when there is none, a multi rule
    always sets its key to the list of the values of all matches. *)
Fixpoint build_fields (build : Element → string → option (completion jsval))
    (node : Element) (schema : list FieldMapping) (result : list (string * jsval))
  : option (completion (list (string * jsval))) :=
  match schema with
  | [] => Some (Normal result)
  | m :: schema' =>
      match compile_selector ns (selector m) with
      | Throw e => Some (Throw e)
      | Normal path =>
          let matches := select_path path [node] in
          if multi m then
            rbind (rmap (build_value build m) matches) (λ vs,
            build_fields build node schema' (set_prop (dest m) (JArray vs) result))
          else
            match matches with
            | [] => build_fields build node schema' result
            | e :: _ =>
                rbind (build_value build m e) (λ v,
                build_fields build node schema' (set_prop (dest m) v result))
            end
      end
  end.

(** Modelled from the spec: [mapper.buildObject(node, type)] of the
    mapper [xml.mapper(types)], section 4.2 of the design; [lib/xml.js] is
    not among the sources.  A schema name without table is a configuration
    error. *)
Fixpoint buildObject (fuel : nat) (node : Element) (type : string)
  : option (completion jsval) :=
  match fuel with
  | O => None
  | S fuel =>
      match assoc type types with
      | None => Some (Throw (Error ("Unknown type " +:+ type)))
      | Some schema =>
          rbind (build_fields (buildObject fuel) node schema [])
                (λ props, Some (Normal (JObject props)))
      end
  end.

End Mapper.
End xml.

(** ** Protocol version 1.0.0 ([lib/versions/1.0.0.js]) *)

Module V1_0_0.
Import xml.

Definition ns : list (string * string) :=
  [ ("wfs", "http://www.opengis.net/wfs");
    ("ogc", "http://www.opengis.net/ogc") ].

Definition types : list (string * list FieldMapping) :=
  [ ("Main",
      [ {| selector := "./wfs:Service"; dest := "service";
           multi := false; type := Some "Service" |};
        {| selector := "./wfs:FeatureTypeList/wfs:FeatureType"; dest := "featureTypes";
           multi := true; type := Some "FeatureType" |} ]);
    ("Service",
      [ field "./wfs:Name" "name";
        field "./wfs:Title" "title";
        field "./wfs:Abstract" "abstract";
        field "./wfs:Keywords" "keywords";
        field "./wfs:OnlineResource" "location";
        field "./wfs:Fees" "fees";
        field "./wfs:AccessConstraints" "accessConstraints" ]);
    ("FeatureType",
      [ field "./wfs:Name" "name";
        field "./wfs:Title" "title";
        field "./wfs:Abstract" "abstract";
        field "./wfs:Keywords" "keywords" ]) ].

Definition resultFormats : list (string * string) :=
  [ ("GML2", "GML v2"); ("GML3", "GML v3"); ("SHAPE-ZIP", "Shapefile");
    ("CSV", "CSV"); ("JSON", "GeoJSON") ].

(** [exports.parseCapabilities].  The mapper is [xml.mapper(types)]: it is
    built from the tables alone; the table [ns] above is not handed to it,
    so that it has no namespace binding. *)
Definition parseCapabilities (fuel : nat) (xmlDoc : Element) : option (completion jsval) :=
  buildObject [] types fuel xmlDoc "Main".

End V1_0_0.

(** ** Capabilities and feature types *)

Definition liftR {A} (r : option (completion A)) : M A :=
  λ st, match r with
        | None => None
        | Some c => Some (c, st)
        end.

Section Capabilities.
Context {sv : Semver}.
Variable server : Server.
(** The modules of versions 1.1.0 and 2.0.0 are not among the sources. *)
Variables parseCapabilities_1_1_0 parseCapabilities_2_0_0 : Element → jsval.

(** [supportedVersions[version].parseCapabilities(xmlDoc)] *)
Definition supportedVersions_parseCapabilities (fuel : nat) (version : option string)
    (xmlDoc : Element) : option (completion jsval) :=
  match version with
  | Some v =>
      if String.eqb v "1.0.0" then V1_0_0.parseCapabilities fuel xmlDoc
      else if String.eqb v "1.1.0" then Some (Normal (parseCapabilities_1_1_0 xmlDoc))
      else if String.eqb v "2.0.0" then Some (Normal (parseCapabilities_2_0_0 xmlDoc))
      else if bool_decide (v ∈ Object_prototype_keys) then
        Some (Throw (TypeError "supportedVersions[version].parseCapabilities is not a function"))
      else
        Some (Throw (TypeError "Cannot read property 'parseCapabilities' of undefined"))
  | None =>
      Some (Throw (TypeError "Cannot read property 'parseCapabilities' of undefined"))
  end.

(** [capabilities()] *)
Definition capabilities (fuel : nat) : M jsval :=
  let* version := _ensureVersion server fuel in
  let* xmlDoc := _request server (GetCapabilities version) in
  liftR (supportedVersions_parseCapabilities fuel version xmlDoc).

(** [featureTypes()] *)
Definition featureTypes (fuel : nat) : M jsval :=
  let* capabilities := capabilities fuel in
  let* featureTypes := lift (js_member capabilities "featureTypes") in
  ret (js_or featureTypes (JArray [])).

End Capabilities.

(** ** Vocabulary of the properties *)

(** The request a negotiation probe with the given candidate sends, and the
    state once it is sent. *)
Definition probe (st : State) (candidateVersion : option string) : Request :=
  {| req_url := url (this st);
     req_query := build_query (this st) (GetCapabilities candidateVersion) |}.

Definition after_probe (st : State) (candidateVersion : option string) : State :=
  {| this := this st; sent := probe st candidateVersion :: sent st |}.

(** The failure kinds of the design, as the errors the code throws. *)
Definition UnreadableVersion : exn :=
  Error "Unable to read version in Capabilities".

Definition NoOverlap (detected candidate : string) : exn :=
  Error ("Version negociation has failed. Lowest version supported by server is "
         +:+ detected +:+ " but candidateVersion was " +:+ candidate).

Definition RecoveryExhausted : exn :=
  Error "Version negociation has failed (recovery mode)".

(** [below x v]: the supported version [v] is strictly smaller than [x]. *)
Definition below {sv : Semver} (x v : string) : Prop :=
  v ∈ supportedVersionsKeys ∧ semver_lt (Some v) (Some x) = Normal true.

(** [f] is the largest supported version strictly smaller than [x]. *)
Definition largest_below {sv : Semver} (x f : string) : Prop :=
  below x f ∧ ∀ v, below x v → semver_gt (Some v) (Some f) = Normal false.

(** The negotiation from [candidateVersion] settles within [n] requests:
    with [n] units of fuel or more it ends, always in the same way, having
    sent at most [n] requests. *)
Definition settles_within {sv : Semver} (server : Server) (n : nat)
    (candidateVersion : option string) (st : State) : Prop :=
  ∃ r st',
    (∀ fuel, _negociateVersion server (n + fuel) candidateVersion st = Some (r, st')) ∧
    (length (sent st') ≤ length (sent st) + n)%nat.

(** What a single probe with the supported candidate [c] can end the
    negotiation with: a supported version, not above [c], that the answer
    to the probe reports; or one of four errors. *)
Definition probe_outcome {sv : Semver} (server : Server) (c : string) (st : State)
    (r : completion string) : Prop :=
  match r with
  | Normal v =>
      v ∈ supportedVersionsKeys ∧
      semver_gt (Some v) (Some c) = Normal false ∧
      ∃ root, server (sent st) (probe st (Some c)) = Parsed root ∧
              name root = "WFS_Capabilities" ∧ attr "version" root = Some v
  | Throw e =>
      e = UnreadableVersion ∨ e = RecoveryExhausted ∨
      (∃ d, e = NoOverlap d c) ∨ (∃ reason, e = TransportFailure reason)
  end.

(** The errors a negotiation can end with. *)
Definition negotiation_failure (e : exn) : Prop :=
  e = UnreadableVersion ∨ e = RecoveryExhausted ∨
  (∃ d c, e = NoOverlap d c) ∨ (∃ reason, e = TransportFailure reason) ∨
  e = TypeError "Invalid Version: undefined".

(** [hands_over a b]: after a probe with candidate [a], the next probe can
    have candidate [b]: [a] is a supported version and [b] is [undefined]
    or a supported version strictly below [a]. *)
Definition hands_over {sv : Semver} (a b : option string) : Prop :=
  ∃ x, a = Some x ∧ x ∈ supportedVersionsKeys ∧
       (b = None ∨ ∃ y, b = Some y ∧ below x y).

(** A sequence of candidates in which each one hands over to the next. *)
Fixpoint descending {sv : Semver} (cs : list (option string)) : Prop :=
  match cs with
  | a :: rest =>
      match rest with
      | b :: _ => hands_over a b ∧ descending rest
      | [] => True
      end
  | [] => True
  end.

(** The state in which the version field of the client is [v]. *)
Definition with_version (st : State) (v : option string) : State :=
  {| this := {| url := url (this st);
                queryStringToAppend := queryStringToAppend (this st);
                version := v;
                agent := agent (this st) |};
     sent := sent st |}.

(** The parameters of a capabilities request, key by key. *)
Definition expected_parameter (this : Client) (version : option string) (k : string)
  : option (option string) :=
  if String.eqb k "request" then Some (Some "GetCapabilities")
  else if String.eqb k "version" then Some version
  else match queryStringToAppend this !! k with
       | Some v => Some v
       | None => if String.eqb k "service" then Some (Some "WFS") else None
       end.

(** The query parameters of a request as the design describes them: the
    protocol identifier, the operation, the version and every extra
    parameter of the caller. *)
Definition includes_all (this : Client) (operation : string)
    (version : option string) (q : Query) : Prop :=
  q !! "service" = Some (Some "WFS") ∧
  q !! "request" = Some (Some operation) ∧
  q !! "version" = Some version ∧
  ∀ k v, queryStringToAppend this !! k = Some v → q !! k = Some v.

Definition wfs_uri : string := "http://www.opengis.net/wfs".

(** The [FeatureType] elements of a version 1.0.0 document: what the
    selector [./wfs:FeatureTypeList/wfs:FeatureType] matches from the root. *)
Definition FeatureType_elements (root : Element) : list Element :=
  xml.select_path [(wfs_uri, "FeatureTypeList"); (wfs_uri, "FeatureType")] [root].

(** A rule for a single text value whose selector is well formed. *)
Definition text_rule (ns : list (string * string)) (m : xml.FieldMapping) : Prop :=
  xml.type m = None ∧ xml.multi m = false ∧
  ∃ path, xml.compile_selector ns (xml.selector m) = Normal path.

(** *** Sample servers and documents *)

(** A capabilities document with the given version attribute and children. *)
Definition WFS_Capabilities (version : option string) (content : list Element) : Element :=
  mkElement "WFS_Capabilities" wfs_uri
    (match version with Some v => [("version", v)] | None => [] end) "" content.

(** An exception report, the usual answer of a server to a version it does
    not know. *)
Definition ServiceExceptionReport : Element :=
  mkElement "ServiceExceptionReport" "http://www.opengis.net/ogc" [] ""
    [mkElement "ServiceException" "http://www.opengis.net/ogc" [] "Invalid version" []].

(** The server that gives the same answer to every request. *)
Definition always (r : Response) : Server := λ _ _, r.

(** The server that answers its n-th request with the n-th version of the
    list, and with the last one ever after. *)
Definition scripted (versions : list string) (final : string) : Server :=
  λ history _, Parsed (WFS_Capabilities (Some (nth (length history) versions final)) []).

Definition example_client : Client :=
  {| url := "http://example.org/wfs"; queryStringToAppend := ∅; version := None;
     agent := None |}.

Definition initial (c : Client) : State := {| this := c; sent := [] |}.

(** A client that holds version 1.0.0, and one that holds 1.1.0. *)
Definition pinned_client : Client :=
  {| url := "http://example.org/wfs"; queryStringToAppend := ∅; version := Some "1.0.0";
     agent := None |}.

Definition pinned_1_1_0 : Client :=
  {| url := "http://example.org/wfs"; queryStringToAppend := ∅; version := Some "1.1.0";
     agent := None |}.

(** A version 1.0.0 capabilities document without content. *)
Definition empty_capabilities : Element := WFS_Capabilities (Some "1.0.0") [].

(** Stand-ins for the [parseCapabilities] of the versions whose module is
    not among the sources: one that returns nothing, and one that returns
    an object with two feature types. *)
Definition no_module : Element → jsval := λ _, JUndefined.

Definition two_featureTypes : jsval :=
  JArray [JObject [("name", JString "roads")]; JObject [("name", JString "rivers")]].

Definition sample_module : Element → jsval :=
  λ _, JObject [("service", JObject [("name", JString "Test Server")]);
                ("featureTypes", two_featureTypes)].

(** A client whose extra parameters bring their own [service]. *)
Definition wms_client : Client :=
  {| url := "http://example.org/wfs";
     queryStringToAppend := {[ "service" := Some "WMS" ]};
     version := None;
     agent := None |}.

(** * Properties *)

(** ** The plain-version implementation satisfies the laws *)

Lemma compare_core_refl x : compare_core x x = Eq.
Proof.
  destruct x as [[a b] c]. unfold compare_core.
  by rewrite !N.compare_refl.
Qed.

Lemma compare_core_antisym x y : compare_core y x = CompOpp (compare_core x y).
Proof.
  destruct x as [[a b] c], y as [[a' b'] c']. unfold compare_core.
  rewrite (N.compare_antisym a a'), (N.compare_antisym b b'), (N.compare_antisym c c').
  destruct (a ?= a')%N, (b ?= b')%N, (c ?= c')%N; reflexivity.
Qed.

Lemma compare_core_trans x y z :
  compare_core x y ≠ Gt → compare_core y z ≠ Gt → compare_core x z ≠ Gt.
Proof.
  destruct x as [[a b] c], y as [[a' b'] c'], z as [[a'' b''] c'']. unfold compare_core.
  destruct (N.compare_spec a a'), (N.compare_spec a' a''), (N.compare_spec a a'');
    try lia; try congruence;
  destruct (N.compare_spec b b'), (N.compare_spec b' b''), (N.compare_spec b b'');
    try lia; try congruence;
  destruct (N.compare_spec c c'), (N.compare_spec c' c''), (N.compare_spec c c'');
    try lia; congruence.
Qed.

Lemma core_semver_laws : SemverLaws core_semver.
Proof.
  split; simpl.
  - intros s Hs. by apply bool_decide_eq_true in Hs.
  - reflexivity.
  - intros k Hk. unfold Object_prototype_keys in Hk.
    repeat (apply elem_of_cons in Hk as [->|Hk]; [by vm_compute|]).
    by apply elem_of_nil in Hk.
  - apply compare_core_refl.
  - apply compare_core_antisym.
  - apply compare_core_trans.
  - intros s Hs. by apply bool_decide_eq_true.
  - intros a b ta tb x y Ha Hb Hx Hy. congruence.
Qed.

(** ** Version negotiation *)

Ltac split_key H :=
  unfold supportedVersionsKeys in H;
  repeat (apply elem_of_cons in H as [->|H]);
  [ .. | by apply elem_of_nil in H ].

Ltac key_in := unfold supportedVersionsKeys; set_solver.

Section Negotiation.
Context {sv : Semver} {laws : SemverLaws sv}.
Variable server : Server.

Lemma request_parsed st c root :
  server (sent st) (probe st c) = Parsed root →
  _request server (GetCapabilities c) st = Some (Normal root, after_probe st c).
Proof. intros H. unfold _request. fold (probe st c). by rewrite H. Qed.

Lemma request_rejected st c reason :
  server (sent st) (probe st c) = Rejected reason →
  _request server (GetCapabilities c) st
  = Some (Throw (TransportFailure reason), after_probe st c).
Proof. intros H. unfold _request. fold (probe st c). by rewrite H. Qed.

Lemma supported_core v :
  v ∈ supportedVersionsKeys → is_Some (core_version v).
Proof.
  unfold supportedVersionsKeys. intros Hv.
  repeat (apply elem_of_cons in Hv as [->|Hv]; [vm_compute; eauto|]).
  by apply elem_of_nil in Hv.
Qed.

Lemma supported_valid v : v ∈ supportedVersionsKeys → semver_valid v = true.
Proof. intros Hv. by apply core_valid, supported_core. Qed.

Lemma valid_truthy d : semver_valid d = true → truthy (Some d) = true.
Proof.
  intros Hd. simpl. destruct (String.eqb_spec d ""); [|done].
  subst. by rewrite valid_nonempty in Hd.
Qed.

Lemma valid_new_SemVer d :
  semver_valid d = true → ∃ x, new_SemVer (Some d) = Normal x.
Proof.
  intros Hd. destruct (valid_new d Hd) as [x Hx].
  exists x. unfold new_SemVer. by rewrite Hx.
Qed.

(** On valid strings [in supportedVersions] is membership among the keys. *)
Lemma in_supportedVersions_valid d :
  semver_valid d = true →
  in_supportedVersions d = bool_decide (d ∈ supportedVersionsKeys).
Proof.
  intros Hd. unfold in_supportedVersions.
  rewrite (bool_decide_eq_false_2 (d ∈ Object_prototype_keys)).
  - by rewrite orb_false_r.
  - intros Hk. apply valid_not_prototype_key in Hk. congruence.
Qed.

Lemma lt_not_gt a b : semver_lt a b = Normal true → semver_gt a b = Normal false.
Proof.
  unfold semver_lt, semver_gt.
  destruct (semver_compare a b) as [[]|]; simpl; congruence.
Qed.

Lemma compare_same d c :
  semver_compare (Some d) (Some d) = Normal c → c = Eq.
Proof.
  unfold semver_compare. destruct (new_SemVer (Some d)) as [x|]; simpl; [|done].
  rewrite compare_refl. congruence.
Qed.

Lemma lt_irrefl d : semver_lt (Some d) (Some d) ≠ Normal true.
Proof.
  unfold semver_lt. destruct (semver_compare (Some d) (Some d)) as [c|] eqn:E; [|done].
  apply compare_same in E as ->. simpl. congruence.
Qed.

Lemma gt_irrefl d : semver_gt (Some d) (Some d) ≠ Normal true.
Proof.
  unfold semver_gt. destruct (semver_compare (Some d) (Some d)) as [c|] eqn:E; [|done].
  apply compare_same in E as ->. simpl. congruence.
Qed.

(** Plain versions compare by their numbers. *)
Lemma semver_compare_core a b ta tb :
  core_version a = Some ta → core_version b = Some tb →
  semver_compare (Some a) (Some b) = Normal (compare_core ta tb).
Proof.
  intros Ha Hb.
  destruct (valid_new a) as [x Hx]; [apply core_valid; eauto|].
  destruct (valid_new b) as [y Hy]; [apply core_valid; eauto|].
  unfold semver_compare, new_SemVer. rewrite Hx, Hy. simpl.
  by rewrite (core_compare a b ta tb x y).
Qed.

Lemma semver_gt_core a b ta tb :
  core_version a = Some ta → core_version b = Some tb →
  semver_gt (Some a) (Some b)
  = Normal (match compare_core ta tb with Gt => true | _ => false end).
Proof.
  intros Ha Hb. unfold semver_gt. by rewrite (semver_compare_core a b ta tb).
Qed.

Lemma semver_lt_core a b ta tb :
  core_version a = Some ta → core_version b = Some tb →
  semver_lt (Some a) (Some b)
  = Normal (match compare_core ta tb with Lt => true | _ => false end).
Proof.
  intros Ha Hb. unfold semver_lt. by rewrite (semver_compare_core a b ta tb).
Qed.

(** Against a version the constructor accepts, every key compares. *)
Lemma lt_key_defined x y v :
  new_SemVer (Some x) = Normal y → v ∈ supportedVersionsKeys →
  ∃ b, semver_lt (Some v) (Some x) = Normal b.
Proof.
  intros Hy Hv. destruct (valid_new_SemVer v (supported_valid v Hv)) as [z Hz].
  unfold semver_lt, semver_compare. rewrite Hz, Hy. simpl. eauto.
Qed.

(** [findLast] over the ascending keys finds the largest key below [x]. *)
Lemma findLast_below x y :
  new_SemVer (Some x) = Normal y →
  (∃ v, below x v) →
  ∃ f, findLast supportedVersionsKeys (λ v, semver_lt (Some v) (Some x)) = Normal (Some f)
       ∧ largest_below x f.
Proof.
  intros Hy [w Hw].
  destruct (lt_key_defined x y "2.0.0" Hy) as [b2 H2]; [key_in|].
  destruct (lt_key_defined x y "1.1.0" Hy) as [b1 H1]; [key_in|].
  destruct (lt_key_defined x y "1.0.0" Hy) as [b0 H0]; [key_in|].
  unfold findLast.
  change (rev supportedVersionsKeys) with ["2.0.0"; "1.1.0"; "1.0.0"].
  cbn [find_from]. rewrite H2, H1, H0.
  destruct b2; [|destruct b1; [|destruct b0]].
  - exists "2.0.0". split; [done|]. split; [split; [key_in|done]|].
    intros v [Hv Hlt]. split_key Hv;
      by erewrite semver_gt_core by (vm_compute; reflexivity).
  - exists "1.1.0". split; [done|]. split; [split; [key_in|done]|].
    intros v [Hv Hlt]. split_key Hv; try congruence;
      by erewrite semver_gt_core by (vm_compute; reflexivity).
  - exists "1.0.0". split; [done|]. split; [split; [key_in|done]|].
    intros v [Hv Hlt]. split_key Hv; try congruence;
      by erewrite semver_gt_core by (vm_compute; reflexivity).
  - destruct Hw as [Hv Hlt]. split_key Hv; congruence.
Qed.

Lemma findLast_none x y :
  new_SemVer (Some x) = Normal y →
  (¬ ∃ v, below x v) →
  findLast supportedVersionsKeys (λ v, semver_lt (Some v) (Some x)) = Normal None.
Proof.
  intros Hy Hnone.
  destruct (lt_key_defined x y "2.0.0" Hy) as [b2 H2]; [key_in|].
  destruct (lt_key_defined x y "1.1.0" Hy) as [b1 H1]; [key_in|].
  destruct (lt_key_defined x y "1.0.0" Hy) as [b0 H0]; [key_in|].
  unfold findLast.
  change (rev supportedVersionsKeys) with ["2.0.0"; "1.1.0"; "1.0.0"].
  cbn [find_from]. rewrite H2, H1, H0.
  destruct b2; [|destruct b1; [|destruct b0; [|done]]];
    exfalso; apply Hnone; eexists; (split; [|eassumption]); key_in.
Qed.

(** The largest supported version below [x] is unique. *)
Lemma largest_below_unique x f g :
  largest_below x f → largest_below x g → f = g.
Proof.
  intros [[Hf Hfx] Hfmax] [[Hg Hgx] Hgmax].
  assert (Hgf : semver_gt (Some g) (Some f) = Normal false) by (by apply Hfmax).
  assert (Hfg : semver_gt (Some f) (Some g) = Normal false) by (by apply Hgmax).
  split_key Hf; split_key Hg; try reflexivity; exfalso;
    erewrite semver_gt_core in Hgf by (vm_compute; reflexivity);
    erewrite semver_gt_core in Hfg by (vm_compute; reflexivity);
    vm_compute in Hgf, Hfg; congruence.
Qed.

(** What [findLast] returns for a plain version [x]. *)
Lemma findLast_keys_core x tx :
  core_version x = Some tx →
  findLast supportedVersionsKeys (λ v, semver_lt (Some v) (Some x))
  = Normal (match compare_core (2, 0, 0)%N tx with
            | Lt => Some "2.0.0"
            | _ => match compare_core (1, 1, 0)%N tx with
                   | Lt => Some "1.1.0"
                   | _ => match compare_core (1, 0, 0)%N tx with
                          | Lt => Some "1.0.0"
                          | _ => None
                          end
                   end
            end).
Proof.
  intros Hx. unfold findLast.
  change (rev supportedVersionsKeys) with ["2.0.0"; "1.1.0"; "1.0.0"].
  cbn [find_from].
  rewrite (semver_lt_core "2.0.0" x (2, 0, 0)%N tx eq_refl Hx).
  rewrite (semver_lt_core "1.1.0" x (1, 1, 0)%N tx eq_refl Hx).
  rewrite (semver_lt_core "1.0.0" x (1, 0, 0)%N tx eq_refl Hx).
  destruct (compare_core (2, 0, 0)%N tx), (compare_core (1, 1, 0)%N tx),
    (compare_core (1, 0, 0)%N tx); reflexivity.
Qed.

(** One probe whose answer is a capabilities document. *)
Lemma capabilities_step fuel st c root d :
  server (sent st) (probe st c) = Parsed root →
  name root = "WFS_Capabilities" →
  attr "version" root = Some d →
  semver_valid d = true →
  Some d ≠ c →
  semver_gt (Some d) c = Normal false →
  _negociateVersion server (S fuel) c st
  = if in_supportedVersions d then Some (Normal d, after_probe st c)
    else (let* nextCandidateVersion :=
            lift (findLast supportedVersionsKeys (λ supportedVersion,
                    semver_lt (Some supportedVersion) (Some d))) in
          _negociateVersion server fuel nextCandidateVersion) (after_probe st c).
Proof.
  intros Hresp Hname Hattr Hvalid Hne Hgt.
  cbn [_negociateVersion]. unfold bind at 1. rewrite (request_parsed _ _ _ Hresp).
  rewrite Hname, Hattr. cbn [String.eqb Ascii.eqb Bool.eqb].
  rewrite (valid_truthy d Hvalid), Hvalid. cbn [negb orb].
  rewrite (bool_decide_eq_false_2 _ Hne).
  unfold bind at 1, lift at 1. rewrite Hgt.
  by destruct (in_supportedVersions d).
Qed.

(** One probe whose answer is not a capabilities document. *)
Lemma recovery_step fuel st c root :
  server (sent st) (probe st c) = Parsed root →
  name root ≠ "WFS_Capabilities" →
  _negociateVersion server (S fuel) c st
  = (let* nextCandidateVersion :=
       lift (findLast supportedVersionsKeys (λ supportedVersion,
               semver_lt (Some supportedVersion) c)) in
     if truthy nextCandidateVersion then _negociateVersion server fuel nextCandidateVersion
     else throw (Error "Version negociation has failed (recovery mode)"))
    (after_probe st c).
Proof.
  intros Hresp Hname.
  cbn [_negociateVersion]. unfold bind at 1. rewrite (request_parsed _ _ _ Hresp).
  by destruct (String.eqb_spec (name root) "WFS_Capabilities").
Qed.

Lemma lt_candidate d c :
  semver_lt (Some d) c = Normal true → ∃ candidate, c = Some candidate ∧ d ≠ candidate.
Proof.
  destruct c as [candidate|].
  - intros Hlt. exists candidate. split; [done|].
    intros ->. by apply lt_irrefl in Hlt.
  - unfold semver_lt, semver_compare.
    destruct (new_SemVer (Some d)); simpl; congruence.
Qed.

Lemma gt_candidate d c :
  semver_gt (Some d) c = Normal true → ∃ candidate, c = Some candidate ∧ d ≠ candidate.
Proof.
  destruct c as [candidate|].
  - intros Hgt. exists candidate. split; [done|].
    intros ->. by apply gt_irrefl in Hgt.
  - unfold semver_gt, semver_compare.
    destruct (new_SemVer (Some d)); simpl; congruence.
Qed.

(** C4: when the detected version is strictly smaller than the candidate
    and is itself supported, the negotiation succeeds with the detected
    version and the probe is the only request sent. *)
Theorem negociate_accepts_supported_detected fuel st c root d :
  server (sent st) (probe st c) = Parsed root →
  name root = "WFS_Capabilities" →
  attr "version" root = Some d →
  semver_lt (Some d) c = Normal true →
  d ∈ supportedVersionsKeys →
  _negociateVersion server (S fuel) c st = Some (Normal d, after_probe st c).
Proof.
  intros Hresp Hname Hattr Hlt Hin.
  destruct (lt_candidate d c Hlt) as (candidate & -> & Hne).
  pose proof (supported_valid d Hin) as Hvalid.
  rewrite (capabilities_step fuel st (Some candidate) root d); try done.
  - rewrite (in_supportedVersions_valid d Hvalid).
    by rewrite (bool_decide_eq_true_2 _ Hin).
  - congruence.
  - by apply lt_not_gt.
Qed.

(** C5: when the detected version is strictly greater than the candidate,
    the negotiation fails with the error that names both versions, and the
    probe is the only request sent. *)
Theorem negociate_no_overlap fuel st c root d :
  server (sent st) (probe st c) = Parsed root →
  name root = "WFS_Capabilities" →
  attr "version" root = Some d →
  semver_valid d = true →
  semver_gt (Some d) c = Normal true →
  ∃ candidate,
    c = Some candidate ∧
    _negociateVersion server (S fuel) c st
    = Some (Throw (NoOverlap d candidate), after_probe st c).
Proof.
  intros Hresp Hname Hattr Hvalid Hgt.
  destruct (gt_candidate d c Hgt) as (candidate & -> & Hne).
  exists candidate. split; [done|].
  cbn [_negociateVersion]. unfold bind at 1. rewrite (request_parsed _ _ _ Hresp).
  rewrite Hname, Hattr. cbn [String.eqb Ascii.eqb Bool.eqb].
  rewrite (valid_truthy d Hvalid), Hvalid. cbn [negb orb].
  rewrite bool_decide_eq_false_2 by congruence.
  unfold bind at 1, lift at 1. by rewrite Hgt.
Qed.

(** C6: when the answer to the probe is not a capabilities document, the
    negotiation continues with the largest supported version strictly
    smaller than the candidate when there is one and fails with the
    recovery-mode error when there is none; when no answer is ever a
    capabilities document, a negotiation started at 2.0.0 sends exactly
    three requests (for 2.0.0, 1.1.0 and 1.0.0) before it fails. *)
Theorem negociate_recovery_mode fuel st candidate root :
  server (sent st) (probe st (Some candidate)) = Parsed root →
  name root ≠ "WFS_Capabilities" →
  semver_valid candidate = true →
  ((∃ v, below candidate v) →
   ∃ fallback,
     largest_below candidate fallback ∧
     _negociateVersion server (S fuel) (Some candidate) st
     = _negociateVersion server fuel (Some fallback) (after_probe st (Some candidate))) ∧
  ((¬ ∃ v, below candidate v) →
   _negociateVersion server (S fuel) (Some candidate) st
   = Some (Throw RecoveryExhausted, after_probe st (Some candidate))) ∧
  ((∀ history request, ∃ answer,
       server history request = Parsed answer ∧ name answer ≠ "WFS_Capabilities") →
   candidate = "2.0.0" → (2 ≤ fuel)%nat →
   _negociateVersion server (S fuel) (Some candidate) st
   = Some (Throw RecoveryExhausted,
           after_probe (after_probe (after_probe st (Some "2.0.0")) (Some "1.1.0"))
                       (Some "1.0.0"))).
Proof.
  intros Hresp Hname Hvalid.
  destruct (valid_new_SemVer candidate Hvalid) as [y Hy].
  rewrite (recovery_step fuel st (Some candidate) root Hresp Hname).
  split; [|split].
  - intros Hex.
    destruct (findLast_below candidate y Hy Hex) as (fallback & Hfind & Hlargest).
    exists fallback. split; [done|].
    unfold bind, lift. rewrite Hfind.
    rewrite valid_truthy; [done|].
    apply supported_valid, Hlargest.
  - intros Hnone. unfold bind, lift.
    by rewrite (findLast_none candidate y Hy Hnone).
  - intros Hall -> Hfuel.
    destruct fuel as [|[|fuel]]; [lia..|].
    unfold bind at 1, lift at 1.
    rewrite (findLast_keys_core "2.0.0" (2, 0, 0)%N eq_refl).
    cbn [compare_core N.compare Pos.compare Pos.compare_cont truthy String.eqb negb].
    set (st1 := after_probe st (Some "2.0.0")).
    destruct (Hall (sent st1) (probe st1 (Some "1.1.0"))) as (a1 & Ha1 & Hn1).
    rewrite (recovery_step _ st1 (Some "1.1.0") a1 Ha1 Hn1).
    unfold bind at 1, lift at 1.
    rewrite (findLast_keys_core "1.1.0" (1, 1, 0)%N eq_refl).
    cbn [compare_core N.compare Pos.compare Pos.compare_cont truthy String.eqb negb].
    set (st2 := after_probe st1 (Some "1.1.0")).
    destruct (Hall (sent st2) (probe st2 (Some "1.0.0"))) as (a2 & Ha2 & Hn2).
    rewrite (recovery_step _ st2 (Some "1.0.0") a2 Ha2 Hn2).
    unfold bind at 1, lift at 1.
    rewrite (findLast_keys_core "1.0.0" (1, 0, 0)%N eq_refl).
    reflexivity.
Qed.

(** C7: when the answer is a capabilities document whose version attribute
    is absent or is not a valid version string, the negotiation fails with
    the unreadable-version error and the probe is the only request sent. *)
Theorem negociate_unreadable_version fuel st c root :
  server (sent st) (probe st c) = Parsed root →
  name root = "WFS_Capabilities" →
  (attr "version" root = None ∨
   ∃ d, attr "version" root = Some d ∧ semver_valid d = false) →
  _negociateVersion server (S fuel) c st
  = Some (Throw UnreadableVersion, after_probe st c).
Proof.
  intros Hresp Hname Hattr.
  cbn [_negociateVersion]. unfold bind at 1. rewrite (request_parsed _ _ _ Hresp).
  rewrite Hname. cbn [String.eqb Ascii.eqb Bool.eqb].
  destruct Hattr as [->|(d & -> & ->)]; [done|].
  by rewrite orb_true_r.
Qed.

End Negotiation.

(** *** The same properties on sample runs *)

Lemma negociate_accepts_supported_detected_witness :
  _negociateVersion (sv := core_semver)
    (always (Parsed (WFS_Capabilities (Some "1.1.0") []))) 1
    (Some "2.0.0") (initial example_client)
  = Some (Normal "1.1.0", after_probe (initial example_client) (Some "2.0.0")).
Proof.
  apply (negociate_accepts_supported_detected (laws := core_semver_laws)
           (always (Parsed (WFS_Capabilities (Some "1.1.0") []))) 0
           (initial example_client) (Some "2.0.0")
           (WFS_Capabilities (Some "1.1.0") []) "1.1.0").
  - reflexivity.
  - reflexivity.
  - reflexivity.
  - vm_compute; reflexivity.
  - key_in.
Defined.

Lemma negociate_no_overlap_witness :
  ∃ candidate,
    Some "2.0.0" = Some candidate ∧
    _negociateVersion (sv := core_semver)
      (always (Parsed (WFS_Capabilities (Some "3.0.0") []))) 1
      (Some "2.0.0") (initial example_client)
    = Some (Throw (NoOverlap "3.0.0" candidate),
            after_probe (initial example_client) (Some "2.0.0")).
Proof.
  apply (negociate_no_overlap (laws := core_semver_laws)
           (always (Parsed (WFS_Capabilities (Some "3.0.0") []))) 0
           (initial example_client) (Some "2.0.0")
           (WFS_Capabilities (Some "3.0.0") []) "3.0.0").
  - reflexivity.
  - reflexivity.
  - reflexivity.
  - vm_compute; reflexivity.
  - vm_compute; reflexivity.
Defined.

Lemma negociate_recovery_mode_witness :
  _negociateVersion (sv := core_semver) (always (Parsed ServiceExceptionReport)) 3
    (Some "2.0.0") (initial example_client)
  = Some (Throw RecoveryExhausted,
          after_probe (after_probe (after_probe (initial example_client) (Some "2.0.0"))
                                   (Some "1.1.0"))
                      (Some "1.0.0")).
Proof.
  apply (negociate_recovery_mode (laws := core_semver_laws)
           (always (Parsed ServiceExceptionReport)) 2
           (initial example_client) "2.0.0" ServiceExceptionReport).
  - reflexivity.
  - vm_compute; discriminate.
  - vm_compute; reflexivity.
  - intros history request. exists ServiceExceptionReport.
    split; [reflexivity | vm_compute; discriminate].
  - reflexivity.
  - lia.
Defined.

Lemma negociate_unreadable_version_witness :
  _negociateVersion (sv := core_semver)
    (always (Parsed (WFS_Capabilities (Some "two") []))) 1
    (Some "2.0.0") (initial example_client)
  = Some (Throw UnreadableVersion, after_probe (initial example_client) (Some "2.0.0")).
Proof.
  apply (negociate_unreadable_version
           (always (Parsed (WFS_Capabilities (Some "two") []))) 0
           (initial example_client) (Some "2.0.0")
           (WFS_Capabilities (Some "two") [])).
  - reflexivity.
  - reflexivity.
  - right. exists "two". split; [reflexivity | vm_compute; reflexivity].
Defined.

(** C1: the code at an input of the claim.  The server answers 0.9.0,
    a valid version that is smaller than the candidate 2.0.0, is not
    supported and has no supported version below it.  The negotiation does
    not stop there: [findLast] returns [undefined], a second request is
    sent whose version parameter is [undefined], and the run ends with the
    [TypeError] of the semver constructor. *)
Theorem negociate_no_smaller_candidate_probes_undefined :
  let server := always (Parsed (WFS_Capabilities (Some "0.9.0") [])) in
  let st := initial example_client in
  semver_valid (Semver := core_semver) "0.9.0" = true ∧
  semver_lt (sv := core_semver) (Some "0.9.0") (Some "2.0.0") = Normal true ∧
  ("0.9.0" ∉ supportedVersionsKeys) ∧
  (¬ ∃ v, below (sv := core_semver) "0.9.0" v) ∧
  req_query (probe (after_probe st (Some "2.0.0")) None) !! "version" = Some None ∧
  ∀ fuel,
    _negociateVersion (sv := core_semver) server (S (S fuel)) (Some "2.0.0") st
    = Some (Throw (TypeError "Invalid Version: undefined"),
            after_probe (after_probe st (Some "2.0.0")) None).
Proof.
  intros server st.
  split; [vm_compute; reflexivity|].
  split; [vm_compute; reflexivity|].
  split; [apply (bool_decide_eq_false_1 _); vm_compute; reflexivity|].
  split; [intros [v [Hv Hlt]]; split_key Hv; vm_compute in Hlt; discriminate|].
  split; [vm_compute; reflexivity|].
  intros fuel. vm_compute. reflexivity.
Qed.

(** C2: the code on a run that starts at the supported candidate 2.0.0.
    The server answers 1.5.0, then 1.0.5, then 0.9.0: the candidates are
    2.0.0, 1.1.0, 1.0.0 and then [undefined], so that four requests are
    sent although three versions are supported. *)
Theorem negociate_four_requests :
  let server := scripted ["1.5.0"; "1.0.5"] "0.9.0" in
  let st := initial example_client in
  let st' := after_probe (after_probe (after_probe (after_probe st
               (Some "2.0.0")) (Some "1.1.0")) (Some "1.0.0")) None in
  "2.0.0" ∈ supportedVersionsKeys ∧
  (∀ fuel,
     _negociateVersion (sv := core_semver) server (4 + fuel) (Some "2.0.0") st
     = Some (Throw (TypeError "Invalid Version: undefined"), st')) ∧
  length (sent st') = 4%nat ∧
  (length supportedVersionsKeys < length (sent st'))%nat.
Proof.
  intros server st st'.
  split; [key_in|].
  split; [intros fuel; vm_compute; reflexivity|].
  split; [reflexivity | vm_compute; lia].
Qed.

(** ** Requests *)

Lemma GetCapabilities_other version k :
  k ≠ "request" → k ≠ "version" → GetCapabilities version !! k = None.
Proof.
  intros Hr Hv. unfold GetCapabilities.
  rewrite lookup_insert_ne by done. by rewrite lookup_singleton_ne.
Qed.

(** C8, as the code has it: the query of every capabilities request
    (probe or final fetch) carries the operation name and the version of
    the call; it carries every extra parameter of the caller whose key is
    neither [request] nor [version]; and it carries [service=WFS] when the
    extra parameters have no [service] of their own. *)
Theorem request_query_parameters (server : Server) (st : State) (version : option string) :
  ∃ c r,
    _request server (GetCapabilities version) st
    = Some (c, {| this := this st; sent := r :: sent st |}) ∧
    req_query r !! "request" = Some (Some "GetCapabilities") ∧
    req_query r !! "version" = Some version ∧
    (∀ k v, k ≠ "request" → k ≠ "version" →
            queryStringToAppend (this st) !! k = Some v → req_query r !! k = Some v) ∧
    (queryStringToAppend (this st) !! "service" = None →
     req_query r !! "service" = Some (Some "WFS")).
Proof.
  assert (∃ c, _request server (GetCapabilities version) st
               = Some (c, after_probe st version)) as [c Hc].
  { unfold _request. fold (probe st version).
    destruct (server (sent st) (probe st version)); eauto. }
  exists c, (probe st version). split; [exact Hc|].
  unfold probe, build_query. cbn [req_query]. repeat split.
  - by apply lookup_union_Some_l.
  - apply lookup_union_Some_l. unfold GetCapabilities.
    rewrite lookup_insert_ne by done. by rewrite lookup_singleton_eq.
  - intros k v Hr Hv Hk.
    rewrite lookup_union_r by (by apply GetCapabilities_other).
    by apply lookup_union_Some_l.
  - intros Hnone.
    rewrite lookup_union_r by (by apply GetCapabilities_other).
    rewrite lookup_union_r by done. by rewrite lookup_singleton_eq.
Qed.

(** The query does not always carry [service=WFS]: the extra parameter
    [service=WMS] of the caller replaces it, so that [includes_all] fails
    for this client. *)
Lemma request_query_service_overridden :
  ∃ c r,
    _request (always (Parsed ServiceExceptionReport)) (GetCapabilities (Some "2.0.0"))
      (initial wms_client)
    = Some (c, {| this := wms_client; sent := [r] |}) ∧
    req_query r !! "service" = Some (Some "WMS") ∧
    ¬ includes_all wms_client "GetCapabilities" (Some "2.0.0") (req_query r).
Proof.
  eexists _, _. split; [reflexivity|]. split.
  - vm_compute; reflexivity.
  - intros [Hservice _]. vm_compute in Hservice. discriminate.
Qed.

(** ** The constructor *)

(** X17: a pinned version that is neither a key of [supportedVersions]
    nor a property name it inherits is refused with the error 'Version not
    supported by client'. *)
Lemma constructor_rejects_unsupported {U : Url} url v qs ms ka :
  truthy url = true → truthy (Some v) = true →
  v ∉ supportedVersionsKeys → v ∉ Object_prototype_keys →
  Client_new url {| opt_version := Some v; opt_queryStringToAppend := qs;
                    opt_maxSockets := ms; opt_keepAlive := ka |}
  = Throw (Error "Version not supported by client").
Proof.
  intros Hurl Hv Hkeys Hproto. unfold Client_new. rewrite Hurl.
  cbn [negb opt_version]. rewrite Hv. cbn [to_string].
  unfold in_supportedVersions.
  by rewrite (bool_decide_eq_false_2 _ Hkeys), (bool_decide_eq_false_2 _ Hproto).
Qed.

(** X18: the version of a client the constructor returns is a supported
    version or an inherited property name. *)
Lemma constructor_pinned_version {U : Url} url options c v :
  Client_new url options = Normal c → version c = Some v →
  v ∈ supportedVersionsKeys ∨ v ∈ Object_prototype_keys.
Proof.
  unfold Client_new. destruct (truthy url); [|done]. cbn [negb].
  destruct (truthy_number (opt_maxSockets options) || truthy_boolean (opt_keepAlive options)).
  - destruct (Agent_lookup _) as [class|].
    + destruct (truthy (opt_version options)) eqn:Ht.
      * destruct (in_supportedVersions _) eqn:Hin; [|done]. cbn [negb cbind].
        intros [= <-]. cbn [version]. intros Hv. rewrite Hv in Hin.
        cbn [to_string] in Hin. unfold in_supportedVersions in Hin.
        apply orb_true_iff in Hin as [Hin|Hin]; apply bool_decide_eq_true in Hin; auto.
      * cbn [cbind]. intros [= <-]. done.
    + destruct (truthy (opt_version options));
        [destruct (in_supportedVersions _)|]; done.
  - destruct (truthy (opt_version options)) eqn:Ht.
    + destruct (in_supportedVersions _) eqn:Hin; [|done]. cbn [negb cbind].
      intros [= <-]. cbn [version]. intros Hv. rewrite Hv in Hin.
      cbn [to_string] in Hin. unfold in_supportedVersions in Hin.
      apply orb_true_iff in Hin as [Hin|Hin]; apply bool_decide_eq_true in Hin; auto.
    + cbn [cbind]. intros [= <-]. done.
Qed.

(** C10: the code at a pinned version that is not supported.  [toString]
    is a property every object inherits, so that the [in] test of the
    constructor accepts it: no error is thrown and the version field of the
    client is [toString]. *)
Theorem constructor_accepts_inherited_property_name :
  ("toString" ∉ supportedVersionsKeys) ∧
  ∀ U : Url,
    Client_new (Some "http://example.org/wfs")
      {| opt_version := Some "toString"; opt_queryStringToAppend := None;
         opt_maxSockets := None; opt_keepAlive := None |}
    = Normal {| url := "http://example.org/wfs";
                queryStringToAppend := ∅;
                version := Some "toString";
                agent := None |}.
Proof.
  split.
  - apply (bool_decide_eq_false_1 _); vm_compute; reflexivity.
  - intros U. vm_compute; reflexivity.
Qed.

(** ** The mapper *)

Section MapperFacts.
Import xml.
Variable ns : list (string * string).

Lemma build_fields_text build node schema :
  Forall (text_rule ns) schema →
  ∀ result, ∃ props, build_fields ns build node schema result = Some (Normal props).
Proof.
  induction 1 as [|m schema (Htype & Hmulti & path & Hpath) _ IH]; intros result.
  - by exists result.
  - cbn [build_fields]. rewrite Hpath, Hmulti.
    destruct (select_path path [node]) as [|e matches]; [apply IH|].
    unfold build_value. rewrite Htype. cbn [rbind]. apply IH.
Qed.

Lemma rmap_total {A B} (f : A → option (completion B)) l :
  (∀ x, ∃ y, f x = Some (Normal y)) →
  ∃ ys, rmap f l = Some (Normal ys) ∧ length ys = length l.
Proof.
  intros Hf. induction l as [|x l (ys & Hys & Hlen)].
  - by exists [].
  - destruct (Hf x) as [y Hy]. exists (y :: ys).
    cbn [rmap]. rewrite Hy, Hys. cbn [rbind length]. by rewrite Hlen.
Qed.

Lemma assoc_set_prop k v props : assoc k (set_prop k v props) = Some v.
Proof.
  induction props as [|[k' v'] props IH]; cbn [set_prop assoc].
  - by rewrite String.eqb_refl.
  - destruct (String.eqb k' k) eqn:E; cbn [assoc]; by rewrite E.
Qed.

Lemma buildObject_S types fuel node type :
  buildObject ns types (S fuel) node type
  = match assoc type types with
    | None => Some (Throw (Error ("Unknown type " +:+ type)))
    | Some schema =>
        rbind (build_fields ns (buildObject ns types fuel) node schema [])
              (λ props, Some (Normal (JObject props)))
    end.
Proof. reflexivity. Qed.

(** A schema of text rules always yields an object. *)
Lemma buildObject_text types fuel node type schema :
  assoc type types = Some schema → Forall (text_rule ns) schema →
  ∃ props, buildObject ns types (S fuel) node type = Some (Normal (JObject props)).
Proof.
  intros Hschema Hrules. rewrite buildObject_S, Hschema.
  destruct (build_fields_text (buildObject ns types fuel) node schema Hrules [])
    as [props ->].
  cbn [rbind]. eauto.
Qed.

End MapperFacts.


Lemma buildObject_FeatureType fuel e :
  ∃ props,
    xml.buildObject V1_0_0.ns V1_0_0.types (S fuel) e "FeatureType"
    = Some (Normal (JObject props)).
Proof.
  eapply buildObject_text; [reflexivity|].
  repeat constructor; eexists; vm_compute; reflexivity.
Qed.

Lemma buildObject_Service fuel e :
  ∃ props,
    xml.buildObject V1_0_0.ns V1_0_0.types (S fuel) e "Service"
    = Some (Normal (JObject props)).
Proof.
  eapply buildObject_text; [reflexivity|].
  repeat constructor; eexists; vm_compute; reflexivity.
Qed.

(** With the namespace table of the module, the object built for the table
    [Main] always has a [featureTypes] list, with one entry per
    [FeatureType] element. *)
Lemma buildObject_Main_featureTypes fuel root :
  ∃ props items,
    xml.buildObject V1_0_0.ns V1_0_0.types (S (S fuel)) root "Main"
    = Some (Normal (JObject props)) ∧
    assoc "featureTypes" props = Some (JArray items) ∧
    length items = length (FeatureType_elements root).
Proof.
  rewrite buildObject_S.
  change (assoc "Main" V1_0_0.types) with
    (Some [ {| xml.selector := "./wfs:Service"; xml.dest := "service";
               xml.multi := false; xml.type := Some "Service" |};
            {| xml.selector := "./wfs:FeatureTypeList/wfs:FeatureType";
               xml.dest := "featureTypes";
               xml.multi := true; xml.type := Some "FeatureType" |} ]).
  set (build := xml.buildObject V1_0_0.ns V1_0_0.types (S fuel)).
  cbn [xml.build_fields xml.selector xml.multi xml.dest].
  change (xml.compile_selector V1_0_0.ns "./wfs:Service")
    with (Normal (A := list (string * string)) [(wfs_uri, "Service")]).
  change (xml.compile_selector V1_0_0.ns "./wfs:FeatureTypeList/wfs:FeatureType")
    with (Normal (A := list (string * string))
            [(wfs_uri, "FeatureTypeList"); (wfs_uri, "FeatureType")]).
  set (rule := {| xml.selector := "./wfs:FeatureTypeList/wfs:FeatureType";
                  xml.dest := "featureTypes";
                  xml.multi := true; xml.type := Some "FeatureType" |}).
  destruct (rmap_total (xml.build_value build rule) (FeatureType_elements root))
    as (items & Hitems & Hlen).
  { intros e. destruct (buildObject_FeatureType fuel e) as [props Hprops].
    exists (JObject props). exact Hprops. }
  unfold FeatureType_elements in Hitems.
  destruct (xml.select_path [(wfs_uri, "Service")] [root]) as [|e service].
  - rewrite Hitems. cbn [rbind].
    eexists _, items. split; [reflexivity|]. split; [apply assoc_set_prop | exact Hlen].
  - unfold xml.build_value at 1. cbn [xml.type].
    destruct (buildObject_Service fuel e) as [props Hprops].
    fold build in Hprops. rewrite Hprops. cbn [rbind]. rewrite Hitems. cbn [rbind].
    eexists _, items. split; [reflexivity|]. split; [apply assoc_set_prop | exact Hlen].
Qed.

(** Without a namespace table the first selector of the table [Main]
    cannot be resolved, whatever the document. *)
Lemma parseCapabilities_unresolved_prefix fuel root :
  V1_0_0.parseCapabilities (S fuel) root
  = Some (Throw (Error "Undefined namespace prefix wfs")).
Proof. reflexivity. Qed.

(** [featureTypes()] never returns [undefined]. *)
Lemma featureTypes_defined {sv : Semver} server p11 p20 fuel st v st' :
  featureTypes server p11 p20 fuel st = Some (Normal v, st') → v ≠ JUndefined.
Proof.
  unfold featureTypes, bind, lift, ret.
  destruct (capabilities server p11 p20 fuel st) as [[[caps|e] st1]|]; [|done..].
  destruct (js_member caps "featureTypes") as [ft|e]; [|done].
  intros [= <- _]. unfold js_or. by destruct ft as [|s| |]; [|destruct s|..].
Qed.

(** C9: the code on a version 1.0.0 document without [FeatureType]
    element.  [parseCapabilities] builds its mapper from the tables alone,
    so that the prefix [wfs] of the selectors has no binding: no object is
    built, whatever the document, and [featureTypes()] of a client of that
    version fails where the empty list is expected. *)
Theorem featureTypes_fails_without_namespaces :
  FeatureType_elements empty_capabilities = [] ∧
  (∀ fuel root props,
     V1_0_0.parseCapabilities fuel root ≠ Some (Normal (JObject props))) ∧
  ∀ (sv : Semver) p11 p20 fuel,
    ∃ e,
      featureTypes (always (Parsed empty_capabilities)) p11 p20 (S fuel)
        (initial pinned_client)
      = Some (Throw e, after_probe (initial pinned_client) (Some "1.0.0")).
Proof.
  split; [reflexivity|]. split.
  - intros [|fuel] root props; [done|].
    by rewrite parseCapabilities_unresolved_prefix.
  - intros sv p11 p20 fuel. eexists.
    unfold featureTypes, capabilities, _ensureVersion, bind, ret.
    cbn [initial this version pinned_client truthy String.eqb Ascii.eqb Bool.eqb negb].
    rewrite (request_parsed (always (Parsed empty_capabilities)) (initial pinned_client)
               (Some "1.0.0") empty_capabilities eq_refl).
    unfold liftR, supportedVersions_parseCapabilities.
    cbn [String.eqb Ascii.eqb Bool.eqb].
    rewrite parseCapabilities_unresolved_prefix. reflexivity.
Qed.

(** ** Runs of the negotiation *)

Section Runs.
Context {sv : Semver} {laws : SemverLaws sv}.
Variable server : Server.

Lemma compare_defined a b x y :
  new_SemVer (Some a) = Normal x → new_SemVer (Some b) = Normal y →
  semver_compare (Some a) (Some b) = Normal (SemVer_compare x y).
Proof. intros Ha Hb. unfold semver_compare. by rewrite Ha, Hb. Qed.

Lemma classic_below x : (∃ v, below x v) ∨ ¬ (∃ v, below x v).
Proof.
  destruct (semver_lt (Some "2.0.0") (Some x)) as [[|]|] eqn:H2;
    [left; exists "2.0.0"; split; [key_in|done] |..];
  (destruct (semver_lt (Some "1.1.0") (Some x)) as [[|]|] eqn:H1;
    [left; exists "1.1.0"; split; [key_in|done] |..]);
  (destruct (semver_lt (Some "1.0.0") (Some x)) as [[|]|] eqn:H0;
    [left; exists "1.0.0"; split; [key_in|done] |..]);
  right; intros [v [Hv Hlt]]; split_key Hv; congruence.
Qed.

(** [f < d] and [d <= c] give [f < c]. *)
Lemma lt_le_trans f d c :
  semver_lt (Some f) (Some d) = Normal true →
  semver_gt (Some d) (Some c) = Normal false →
  semver_lt (Some f) (Some c) = Normal true.
Proof.
  unfold semver_lt, semver_gt, semver_compare.
  destruct (new_SemVer (Some f)) as [x|]; [|done].
  destruct (new_SemVer (Some d)) as [y|]; [|done].
  destruct (new_SemVer (Some c)) as [z|]; [|done].
  cbn [cbind]. intros Hxy Hyz.
  assert (Hxy' : SemVer_compare x y = Lt) by (destruct (SemVer_compare x y); congruence).
  assert (Hyz' : SemVer_compare y z ≠ Gt) by (destruct (SemVer_compare y z); congruence).
  assert (Hxz : SemVer_compare x z ≠ Gt).
  { apply (compare_trans x y z); congruence. }
  destruct (SemVer_compare x z) eqn:E; [|done..].
  exfalso.
  assert (Hzx : SemVer_compare z x ≠ Gt).
  { rewrite (compare_antisym x z), E. done. }
  assert (Hyx : SemVer_compare y x ≠ Gt) by (by apply (compare_trans y z x)).
  rewrite (compare_antisym x y), Hxy' in Hyx. done.
Qed.

(** [v <= f] and [f < c] give [v <= c]. *)
Lemma le_lt_trans v f c :
  semver_gt (Some v) (Some f) = Normal false →
  semver_lt (Some f) (Some c) = Normal true →
  semver_gt (Some v) (Some c) = Normal false.
Proof.
  unfold semver_lt, semver_gt, semver_compare.
  destruct (new_SemVer (Some v)) as [x|]; [|done].
  destruct (new_SemVer (Some f)) as [y|]; [|done].
  destruct (new_SemVer (Some c)) as [z|]; [|done].
  cbn [cbind]. intros Hxy Hyz.
  assert (Hxz : SemVer_compare x z ≠ Gt).
  { apply (compare_trans x y z).
    - destruct (SemVer_compare x y); congruence.
    - destruct (SemVer_compare y z); congruence. }
  destruct (SemVer_compare x z); congruence.
Qed.

Lemma gt_same_false c :
  c ∈ supportedVersionsKeys → semver_gt (Some c) (Some c) = Normal false.
Proof.
  intros Hc. destruct (valid_new_SemVer c (supported_valid c Hc)) as [z Hz].
  unfold semver_gt. rewrite (compare_defined c c z z Hz Hz), compare_refl. done.
Qed.

(** A probe whose answer has no readable version. *)
Lemma probe_unreadable fuel st c root :
  server (sent st) (probe st c) = Parsed root →
  name root = "WFS_Capabilities" →
  match attr "version" root with
  | Some d => negb (truthy (Some d)) || negb (semver_valid d) = true
  | None => True
  end →
  _negociateVersion server (S fuel) c st
  = Some (Throw UnreadableVersion, after_probe st c).
Proof.
  intros Hresp Hname Hattr.
  cbn [_negociateVersion]. unfold bind at 1. rewrite (request_parsed _ _ _ _ Hresp).
  rewrite Hname. cbn [String.eqb Ascii.eqb Bool.eqb].
  destruct (attr "version" root) as [d|]; [|done]. by rewrite Hattr.
Qed.

(** With candidate [undefined] the run ends in an error after one
    request. *)
Lemma negociate_undefined st :
  ∃ e,
    (e = UnreadableVersion ∨ (∃ reason, e = TransportFailure reason) ∨
     e = TypeError "Invalid Version: undefined") ∧
    ∀ fuel,
      _negociateVersion server (S fuel) None st = Some (Throw e, after_probe st None).
Proof.
  destruct (server (sent st) (probe st None)) as [root|reason] eqn:Hresp.
  - destruct (String.eqb (name root) "WFS_Capabilities") eqn:Hname.
    + apply String.eqb_eq in Hname.
      destruct (attr "version" root) as [d|] eqn:Hattr.
      * destruct (negb (truthy (Some d)) || negb (semver_valid d)) eqn:Hok.
        -- exists UnreadableVersion. split; [by left|]. intros fuel.
           apply (probe_unreadable fuel st None root Hresp Hname). by rewrite Hattr.
        -- apply orb_false_iff in Hok as [_ Hvalid].
           apply negb_false_iff in Hvalid.
           destruct (valid_new_SemVer d Hvalid) as [y Hy].
           exists (TypeError "Invalid Version: undefined").
           split; [by right; right|]. intros fuel.
           cbn [_negociateVersion]. unfold bind at 1.
           rewrite (request_parsed _ _ _ _ Hresp), Hname, Hattr.
           cbn [String.eqb Ascii.eqb Bool.eqb].
           rewrite (valid_truthy d Hvalid), Hvalid. cbn [negb orb].
           rewrite bool_decide_eq_false_2 by done.
           unfold bind, lift, semver_gt, semver_compare. rewrite Hy. reflexivity.
      * exists UnreadableVersion. split; [by left|]. intros fuel.
        apply (probe_unreadable fuel st None root Hresp Hname). by rewrite Hattr.
    + apply String.eqb_neq in Hname.
      destruct (valid_new_SemVer "2.0.0") as [z Hz]; [apply supported_valid; key_in|].
      exists (TypeError "Invalid Version: undefined").
      split; [by right; right|]. intros fuel.
      rewrite (recovery_step _ _ _ _ _ Hresp Hname).
      unfold bind, lift, findLast.
      change (rev supportedVersionsKeys) with ["2.0.0"; "1.1.0"; "1.0.0"].
      cbn [find_from]. unfold semver_lt at 1, semver_compare. rewrite Hz. reflexivity.
  - exists (TransportFailure reason). split; [right; left; eauto|]. intros fuel.
    cbn [_negociateVersion]. unfold bind at 1.
    rewrite (request_rejected _ _ _ _ Hresp). reflexivity.
Qed.

(** One probe with a supported candidate ends the run, or hands over to
    [undefined] or to a supported version strictly below the candidate. *)
Lemma negociate_step c st :
  c ∈ supportedVersionsKeys →
  (∃ r, probe_outcome server c st r ∧
        ∀ fuel,
          _negociateVersion server (S fuel) (Some c) st
          = Some (r, after_probe st (Some c))) ∨
  (∃ next,
     hands_over (Some c) next ∧
     ∀ fuel,
       _negociateVersion server (S fuel) (Some c) st
       = _negociateVersion server fuel next (after_probe st (Some c))).
Proof.
  intros Hc.
  destruct (valid_new_SemVer c (supported_valid c Hc)) as [z Hz].
  destruct (server (sent st) (probe st (Some c))) as [root|reason] eqn:Hresp.
  - destruct (String.eqb (name root) "WFS_Capabilities") eqn:Hname.
    + apply String.eqb_eq in Hname.
      destruct (attr "version" root) as [d|] eqn:Hattr.
      * destruct (semver_valid d) eqn:Hvalid.
        -- destruct (decide (Some d = Some c)) as [Heq|Hne].
           { left. exists (Normal d). split.
             - injection Heq as ->. split; [done|]. split; [by apply gt_same_false|].
               exists root. by rewrite Hresp.
             - intros fuel.
               cbn [_negociateVersion]. unfold bind at 1.
               rewrite (request_parsed _ _ _ _ Hresp), Hname, Hattr.
               cbn [String.eqb Ascii.eqb Bool.eqb].
               rewrite (valid_truthy d Hvalid), Hvalid. cbn [negb orb].
               rewrite (bool_decide_eq_true_2 _ Heq). reflexivity. }
           destruct (valid_new_SemVer d Hvalid) as [y Hy].
           pose proof (compare_defined d c y z Hy Hz) as Hcmp.
           destruct (semver_gt (Some d) (Some c)) as [[|]|] eqn:Hgt.
           ++ left. exists (Throw (NoOverlap d c)). split; [right; right; left; eauto|].
              intros fuel.
              cbn [_negociateVersion]. unfold bind at 1.
              rewrite (request_parsed _ _ _ _ Hresp), Hname, Hattr.
              cbn [String.eqb Ascii.eqb Bool.eqb].
              rewrite (valid_truthy d Hvalid), Hvalid. cbn [negb orb].
              rewrite (bool_decide_eq_false_2 _ Hne).
              unfold bind, lift. rewrite Hgt. reflexivity.
           ++ destruct (in_supportedVersions d) eqn:Hin.
              { left. exists (Normal d). split.
                - rewrite (in_supportedVersions_valid d Hvalid) in Hin.
                  apply bool_decide_eq_true in Hin.
                  split; [done|]. split; [done|]. exists root. by rewrite Hresp.
                - intros fuel.
                  rewrite (capabilities_step _ fuel st (Some c) root d); try done.
                  by rewrite Hin. }
              destruct (classic_below d) as [Hex|Hnone].
              ** destruct (findLast_below d y Hy Hex) as (f & Hfind & [[Hf Hfd] _]).
                 right. exists (Some f). split.
                 { exists c. split; [done|]. split; [done|].
                   right. exists f. split; [done|]. split; [done|].
                   by apply (lt_le_trans f d c). }
                 intros fuel.
                 rewrite (capabilities_step _ fuel st (Some c) root d); try done.
                 rewrite Hin. unfold bind, lift. by rewrite Hfind.
              ** right. exists None. split.
                 { exists c. split; [done|]. split; [done|]. by left. }
                 intros fuel.
                 rewrite (capabilities_step _ fuel st (Some c) root d); try done.
                 rewrite Hin. unfold bind, lift.
                 by rewrite (findLast_none d y Hy Hnone).
           ++ unfold semver_gt in Hgt. rewrite Hcmp in Hgt. done.
        -- left. exists (Throw UnreadableVersion). split; [by left|]. intros fuel.
           apply (probe_unreadable fuel st (Some c) root Hresp Hname).
           rewrite Hattr, Hvalid. apply orb_true_r.
      * left. exists (Throw UnreadableVersion). split; [by left|]. intros fuel.
        apply (probe_unreadable fuel st (Some c) root Hresp Hname). by rewrite Hattr.
    + apply String.eqb_neq in Hname.
      destruct (classic_below c) as [Hex|Hnone].
      * destruct (findLast_below c z Hz Hex) as (f & Hfind & [[Hf Hfc] _]).
        right. exists (Some f). split.
        { exists c. split; [done|]. split; [done|]. right. exists f. done. }
        intros fuel. rewrite (recovery_step _ _ _ _ _ Hresp Hname).
        unfold bind, lift. rewrite Hfind.
        by rewrite (valid_truthy f (supported_valid f Hf)).
      * left. exists (Throw RecoveryExhausted). split; [by right; left|]. intros fuel.
        rewrite (recovery_step _ _ _ _ _ Hresp Hname).
        unfold bind, lift. rewrite (findLast_none c z Hz Hnone). reflexivity.
  - left. exists (Throw (TransportFailure reason)). split; [right; right; right; eauto|].
    intros fuel.
    cbn [_negociateVersion]. unfold bind at 1.
    rewrite (request_rejected _ _ _ _ Hresp). reflexivity.
Qed.

Lemma below_1_0_0 f : ¬ below "1.0.0" f.
Proof.
  intros [Hf Hlt]. split_key Hf;
    erewrite semver_lt_core in Hlt by (vm_compute; reflexivity);
    vm_compute in Hlt; done.
Qed.

Lemma below_1_1_0 f : below "1.1.0" f → f = "1.0.0".
Proof.
  intros [Hf Hlt]. split_key Hf; [done|..];
    erewrite semver_lt_core in Hlt by (vm_compute; reflexivity);
    vm_compute in Hlt; done.
Qed.

Lemma below_2_0_0 f : below "2.0.0" f → f = "1.0.0" ∨ f = "1.1.0".
Proof.
  intros [Hf Hlt]. split_key Hf; [by left | by right |].
  erewrite semver_lt_core in Hlt by (vm_compute; reflexivity).
  vm_compute in Hlt. done.
Qed.

Lemma settles_mono n m c st :
  (n ≤ m)%nat → settles_within server n c st → settles_within server m c st.
Proof.
  intros Hnm (r & st' & Hrun & Hlen). exists r, st'. split; [|lia].
  intros fuel. replace (m + fuel)%nat with (n + (m - n + fuel))%nat by lia. apply Hrun.
Qed.

Lemma settles_undefined st : settles_within server 1 None st.
Proof.
  destruct (negociate_undefined st) as (e & _ & Hr).
  exists (Throw e), (after_probe st None). split; [intros fuel; apply Hr|].
  cbn [after_probe sent length]. lia.
Qed.

Lemma settles_step n c st :
  c ∈ supportedVersionsKeys →
  (∀ st', settles_within server n None st') →
  (∀ f st', below c f → settles_within server n (Some f) st') →
  settles_within server (S n) (Some c) st.
Proof.
  intros Hc Hnone Hbelow.
  destruct (negociate_step c st Hc) as [(r & _ & Hr)|(next & Hnext & Hrun)].
  - exists r, (after_probe st (Some c)). split; [intros fuel; apply Hr|].
    cbn [after_probe sent length]. lia.
  - assert (settles_within server n next (after_probe st (Some c)))
      as (r & st' & Hrest & Hlen).
    { destruct Hnext as (x & [= <-] & _ & [->|(f & -> & Hf)]);
        [apply Hnone | by apply Hbelow]. }
    exists r, st'. split.
    + intros fuel. change (S n + fuel)%nat with (S (n + fuel)). by rewrite Hrun.
    + cbn [after_probe sent length] in Hlen. lia.
Qed.

Lemma settles_1_0_0 st : settles_within server 2 (Some "1.0.0") st.
Proof.
  apply settles_step; [key_in | apply settles_undefined |].
  intros f st' Hf. by apply below_1_0_0 in Hf.
Qed.

Lemma settles_1_1_0 st : settles_within server 3 (Some "1.1.0") st.
Proof.
  apply settles_step; [key_in | |].
  - intros st'. apply (settles_mono 1); [lia | apply settles_undefined].
  - intros f st' ->%below_1_1_0. apply settles_1_0_0.
Qed.

Lemma settles_2_0_0 st : settles_within server 4 (Some "2.0.0") st.
Proof.
  apply settles_step; [key_in | |].
  - intros st'. apply (settles_mono 1); [lia | apply settles_undefined].
  - intros f st' [->| ->]%below_2_0_0.
    + apply (settles_mono 2); [lia | apply settles_1_0_0].
    + apply settles_1_1_0.
Qed.

(** X1: from every supported candidate and against every server the
    negotiation ends, after at most one request more than there are
    supported versions. *)
Theorem negociate_terminates c st :
  c ∈ supportedVersionsKeys →
  settles_within server (length supportedVersionsKeys + 1) (Some c) st.
Proof.
  intros Hc. change (length supportedVersionsKeys + 1)%nat with 4%nat.
  split_key Hc.
  - apply (settles_mono 2); [lia | apply settles_1_0_0].
  - apply (settles_mono 3); [lia | apply settles_1_1_0].
  - apply settles_2_0_0.
Qed.

(** What a run from a supported candidate ends with. *)
Lemma negociate_outcome fuel c st r st' :
  c ∈ supportedVersionsKeys →
  _negociateVersion server fuel (Some c) st = Some (r, st') →
  match r with
  | Normal v => v ∈ supportedVersionsKeys ∧ semver_gt (Some v) (Some c) = Normal false
  | Throw e => negotiation_failure e
  end.
Proof.
  revert c st. induction fuel as [|fuel IH]; intros c st Hc Hrun; [done|].
  destruct (negociate_step c st Hc) as [(r0 & Hout & Hr)|(next & Hnext & Hstep)].
  - rewrite Hr in Hrun. injection Hrun as <- _.
    destruct r0 as [v|e]; cbn [probe_outcome] in Hout.
    + destruct Hout as (Hv & Hgt & _). done.
    + destruct Hout as [->|[->|[[d ->]|[reason ->]]]]; unfold negotiation_failure; eauto 10.
  - rewrite Hstep in Hrun.
    destruct Hnext as (x & [= <-] & _ & [->|(f & -> & Hf)]).
    + destruct fuel; [done|].
      destruct (negociate_undefined (after_probe st (Some c))) as (e' & He' & He).
      rewrite He in Hrun. injection Hrun as <- _.
      destruct He' as [->|[[reason ->]| ->]]; unfold negotiation_failure; eauto 10.
    + specialize (IH f _ (proj1 Hf) Hrun). destruct r as [v|e]; [|done].
      destruct IH as [Hv Hgt]. split; [done|].
      apply (le_lt_trans v f c); [done | apply Hf].
Qed.

(** X2: a version the negotiation returns from a supported candidate is
    a supported version, and it is not greater than that candidate. *)
Theorem negociate_result_supported fuel c st v st' :
  c ∈ supportedVersionsKeys →
  _negociateVersion server fuel (Some c) st = Some (Normal v, st') →
  v ∈ supportedVersionsKeys ∧ semver_gt (Some v) (Some c) = Normal false.
Proof.
  intros Hc Hrun.
  pose proof (negociate_outcome fuel c st (Normal v) st' Hc Hrun) as Hout.
  exact Hout.
Qed.

(** X3: an error the negotiation ends with from a supported candidate is
    one of five: unreadable version, no overlap, recovery exhausted, a
    transport failure, or the [TypeError] of the semver constructor on
    [undefined]. *)
Theorem negociate_failure_kinds fuel c st e st' :
  c ∈ supportedVersionsKeys →
  _negociateVersion server fuel (Some c) st = Some (Throw e, st') →
  negotiation_failure e.
Proof.
  intros Hc Hrun.
  pose proof (negociate_outcome fuel c st (Throw e) st' Hc Hrun) as Hout.
  exact Hout.
Qed.

(** X4: the candidates the negotiation probes from a supported candidate
    form a descending sequence: each one is a supported version strictly
    below the one before, except that the last one may be [undefined]; the
    requests sent are the probes of these candidates, in this order. *)
Theorem negociate_candidates_descend fuel c st r st' :
  c ∈ supportedVersionsKeys →
  _negociateVersion server fuel (Some c) st = Some (r, st') →
  ∃ cs,
    sent st' = (rev (probe st <$> (Some c :: cs)) ++ sent st)%list ∧
    descending (Some c :: cs).
Proof.
  revert c st. induction fuel as [|fuel IH]; intros c st Hc Hrun; [done|].
  destruct (negociate_step c st Hc) as [(r0 & Hout & Hr)|(next & Hnext & Hstep)].
  - rewrite Hr in Hrun. injection Hrun as _ <-. by exists [].
  - rewrite Hstep in Hrun.
    pose proof Hnext as (x & [= <-] & _ & [->|(f & -> & Hf)]).
    + destruct fuel; [done|].
      destruct (negociate_undefined (after_probe st (Some c))) as (e & _ & He).
      rewrite He in Hrun. injection Hrun as _ <-.
      exists [None]. split; [reflexivity|]. by split.
    + destruct (IH f _ (proj1 Hf) Hrun) as (cs & Hsent & Hdesc).
      exists (Some f :: cs). split; [|by split].
      rewrite Hsent. change (probe (after_probe st (Some c))) with (probe st).
      cbn [fmap list_fmap rev after_probe sent]. by rewrite <- !app_assoc.
Qed.

(** X5: when the answer to the probe is a capabilities document whose
    version is the candidate itself, the negotiation succeeds with it
    and the probe is the only request sent. *)
Theorem negociate_match fuel st d root :
  server (sent st) (probe st (Some d)) = Parsed root →
  name root = "WFS_Capabilities" →
  attr "version" root = Some d →
  semver_valid d = true →
  _negociateVersion server (S fuel) (Some d) st
  = Some (Normal d, after_probe st (Some d)).
Proof.
  intros Hresp Hname Hattr Hvalid.
  cbn [_negociateVersion]. unfold bind at 1. rewrite (request_parsed _ _ _ _ Hresp).
  rewrite Hname, Hattr. cbn [String.eqb Ascii.eqb Bool.eqb].
  rewrite (valid_truthy d Hvalid), Hvalid. cbn [negb orb].
  by rewrite bool_decide_eq_true_2.
Qed.

(** What every run keeps, whatever the candidate and the semver
    implementation. *)
Lemma negociate_invariant fuel c st r st' :
  _negociateVersion server fuel c st = Some (r, st') →
  this st' = this st ∧
  (∃ cs, sent st' = (rev (probe st <$> (c :: cs)) ++ sent st)%list) ∧
  match r with
  | Normal v =>
      truthy (Some v) = true ∧ semver_valid v = true ∧
      ∃ request earlier root,
        sent st' = request :: earlier ∧
        server earlier request = Parsed root ∧
        name root = "WFS_Capabilities" ∧ attr "version" root = Some v
  | Throw _ => True
  end.
Proof.
  revert c st. induction fuel as [|fuel IH]; intros c st Hrun; [done|].
  set (goal := this st' = this st ∧
    (∃ cs, sent st' = (rev (probe st <$> (c :: cs)) ++ sent st)%list) ∧
    match r with
    | Normal v =>
        truthy (Some v) = true ∧ semver_valid v = true ∧
        ∃ request earlier root,
          sent st' = request :: earlier ∧
          server earlier request = Parsed root ∧
          name root = "WFS_Capabilities" ∧ attr "version" root = Some v
    | Throw _ => True
    end).
  assert (Hrec : ∀ next,
            _negociateVersion server fuel next (after_probe st c) = Some (r, st') → goal).
  { intros next Hnext. destruct (IH next _ Hnext) as (Hthis & [cs Hsent] & Hresult).
    split; [done|]. split; [|done]. exists (next :: cs). rewrite Hsent.
    change (probe (after_probe st c)) with (probe st).
    cbn [fmap list_fmap rev after_probe sent]. by rewrite <- !app_assoc. }
  assert (Hthrow : ∀ e, Some (Throw e, after_probe st c) = Some (r, st') → goal).
  { intros e [= <- <-]. split; [done|]. split; [by exists []|done]. }
  cbn [_negociateVersion] in Hrun. unfold bind at 1, _request in Hrun.
  fold (probe st c) in Hrun. fold (after_probe st c) in Hrun.
  destruct (server (sent st) (probe st c)) as [root|reason] eqn:Hresp;
    [|by eapply Hthrow].
  destruct (String.eqb (name root) "WFS_Capabilities") eqn:Hname.
  - apply String.eqb_eq in Hname.
    destruct (attr "version" root) as [d|] eqn:Hattr; [|by eapply Hthrow].
    destruct (negb (truthy (Some d)) || negb (semver_valid d)) eqn:Hok;
      [by eapply Hthrow|].
    apply orb_false_iff in Hok as [Htruthy Hvalid].
    apply negb_false_iff in Htruthy, Hvalid.
    assert (Hhere : Some (Normal d, after_probe st c) = Some (r, st') → goal).
    { intros [= <- <-]. split; [done|]. split; [by exists []|].
      split; [done|]. split; [done|]. exists (probe st c), (sent st), root. done. }
    destruct (bool_decide (Some d = c)); [by apply Hhere|].
    unfold bind at 1, lift at 1 in Hrun.
    destruct (semver_gt (Some d) c) as [[|]|]; [by eapply Hthrow| |by eapply Hthrow].
    destruct (in_supportedVersions d); [by apply Hhere|].
    unfold bind at 1, lift at 1 in Hrun.
    destruct (findLast _ _) as [next|]; [by eapply Hrec | by eapply Hthrow].
  - unfold bind at 1, lift at 1 in Hrun.
    destruct (findLast _ _) as [next|]; [|by eapply Hthrow].
    destruct (truthy next); [by eapply Hrec | by eapply Hthrow].
Qed.

(** X6: whatever the candidate, the semver implementation and the
    outcome, the negotiation leaves the client object as it is, and the
    requests it sends are capabilities probes of that client, the first
    one with the candidate it was called with. *)
Theorem negociate_sends_probes fuel c st r st' :
  _negociateVersion server fuel c st = Some (r, st') →
  this st' = this st ∧
  ∃ cs, sent st' = (rev (probe st <$> (c :: cs)) ++ sent st)%list.
Proof.
  intros Hrun.
  destruct (negociate_invariant fuel c st r st' Hrun) as (Hthis & Hsent & _).
  by split.
Qed.

(** X7: whatever the candidate and the semver implementation, a version
    the negotiation returns is not empty, is valid, and is the version
    attribute of the capabilities document that answered the last request
    sent. *)
Theorem negociate_result_reported fuel c st v st' :
  _negociateVersion server fuel c st = Some (Normal v, st') →
  truthy (Some v) = true ∧ semver_valid v = true ∧
  ∃ request earlier root,
    sent st' = request :: earlier ∧
    server earlier request = Parsed root ∧
    name root = "WFS_Capabilities" ∧ attr "version" root = Some v.
Proof.
  intros Hrun.
  destruct (negociate_invariant fuel c st (Normal v) st' Hrun) as (_ & _ & Hresult).
  exact Hresult.
Qed.

(** More fuel does not change a run that has ended. *)
Lemma negociate_fuel_mono fuel c st x k :
  _negociateVersion server fuel c st = Some x →
  _negociateVersion server (k + fuel) c st = Some x.
Proof.
  revert c st. induction fuel as [|fuel IH]; intros c st Hrun; [done|].
  rewrite Nat.add_succ_r. cbn [_negociateVersion] in Hrun |- *.
  unfold bind at 1 in Hrun. unfold bind at 1.
  destruct (_request server (GetCapabilities c) st) as [[[root|e] st1]|]; [|done..].
  destruct (String.eqb (name root) "WFS_Capabilities").
  - destruct (attr "version" root) as [d|]; [|done].
    destruct (negb (truthy (Some d)) || negb (semver_valid d)); [done|].
    destruct (bool_decide (Some d = c)); [done|].
    unfold bind at 1, lift at 1 in Hrun. unfold bind at 1, lift at 1.
    destruct (semver_gt (Some d) c) as [[|]|]; [done| |done].
    destruct (in_supportedVersions d); [done|].
    unfold bind at 1, lift at 1 in Hrun. unfold bind at 1, lift at 1.
    destruct (findLast _ _) as [next|]; [by apply IH | done].
  - unfold bind at 1, lift at 1 in Hrun. unfold bind at 1, lift at 1.
    destruct (findLast _ _) as [next|]; [|done].
    destruct (truthy next); [by apply IH | done].
Qed.

Lemma settles_supported c st :
  c ∈ supportedVersionsKeys → settles_within server 4 (Some c) st.
Proof.
  intros Hc. split_key Hc.
  - apply (settles_mono 2); [lia | apply settles_1_0_0].
  - apply (settles_mono 3); [lia | apply settles_1_1_0].
  - apply settles_2_0_0.
Qed.

(** C3: when the detected version is strictly smaller than the candidate
    and is not supported, the negotiation continues with the largest
    supported version strictly smaller than the detected version as its
    next candidate (not the largest one below the candidate): the run ends,
    and the second request it has sent is the probe with that candidate.
    With detected version 1.0.5, as after a probe with candidate 2.0.0,
    that next candidate is 1.0.0. *)
Theorem negociate_steps_below_detected fuel st c root d :
  server (sent st) (probe st c) = Parsed root →
  name root = "WFS_Capabilities" →
  attr "version" root = Some d →
  semver_valid d = true →
  semver_lt (Some d) c = Normal true →
  d ∉ supportedVersionsKeys →
  (∃ v, below d v) →
  ∃ next,
    largest_below d next ∧
    _negociateVersion server (S fuel) c st
    = _negociateVersion server fuel (Some next) (after_probe st c) ∧
    (d = "1.0.5" → next = "1.0.0") ∧
    ∃ r st' cs,
      (∀ fuel', (5 ≤ fuel')%nat → _negociateVersion server fuel' c st = Some (r, st')) ∧
      sent st' = (rev (probe st <$> (c :: Some next :: cs)) ++ sent st)%list.
Proof.
  intros Hresp Hname Hattr Hvalid Hlt Hnotin Hex.
  destruct (lt_candidate d c Hlt) as (candidate & -> & Hne).
  destruct (valid_new_SemVer d Hvalid) as [y Hy].
  destruct (findLast_below d y Hy Hex) as (next & Hfind & Hlargest).
  assert (Hstep : ∀ f,
            _negociateVersion server (S f) (Some candidate) st
            = _negociateVersion server f (Some next) (after_probe st (Some candidate))).
  { intros f. rewrite (capabilities_step server f st (Some candidate) root d); try done.
    - rewrite (in_supportedVersions_valid d Hvalid).
      rewrite (bool_decide_eq_false_2 _ Hnotin).
      unfold bind, lift. by rewrite Hfind.
    - congruence.
    - by apply lt_not_gt. }
  exists next. split; [done|]. split; [apply Hstep|]. split.
  - intros ->.
    rewrite (findLast_keys_core "1.0.5" (1, 0, 5)%N eq_refl) in Hfind.
    vm_compute in Hfind. congruence.
  - destruct (settles_supported next (after_probe st (Some candidate)))
      as (r & st' & Hall & _); [apply Hlargest|].
    destruct (negociate_invariant 4 (Some next) _ r st' (Hall 0%nat))
      as (_ & [cs Hsent] & _).
    exists r, st', cs. split.
    + intros fuel' Hfuel. destruct fuel' as [|f]; [lia|].
      rewrite Hstep. replace f with (4 + (f - 4))%nat by lia. apply Hall.
    + rewrite Hsent. change (probe (after_probe st (Some candidate))) with (probe st).
      cbn [fmap list_fmap rev after_probe sent]. by rewrite <- !app_assoc.
Qed.

(** A run from a supported candidate that has ended has sent at most four
    requests. *)
Lemma negociate_budget fuel c st r st' :
  c ∈ supportedVersionsKeys →
  _negociateVersion server fuel (Some c) st = Some (r, st') →
  (length (sent st') ≤ length (sent st) + 4)%nat.
Proof.
  intros Hc Hrun.
  destruct (settles_supported c st Hc) as (r0 & st0 & Hall & Hlen).
  apply (negociate_fuel_mono _ _ _ _ 4) in Hrun.
  rewrite Hall in Hrun. by injection Hrun as _ <-.
Qed.

End Runs.

(** ** Resolving the version and fetching the capabilities *)

Section Resolution.
Context {sv : Semver} {laws : SemverLaws sv}.
Variable server : Server.
Variables parseCapabilities_1_1_0 parseCapabilities_2_0_0 : Element → jsval.

Lemma ensureVersion_unfold fuel st :
  _ensureVersion server fuel st
  = if truthy (version (this st)) then Some (Normal (version (this st)), st)
    else match _negociateVersion server fuel (Some "2.0.0") st with
         | Some (Normal v, st1) => Some (Normal (Some v), with_version st1 (Some v))
         | Some (Throw e, st1) => Some (Throw e, st1)
         | None => None
         end.
Proof.
  unfold _ensureVersion, bind, ret.
  destruct (truthy (version (this st))); cbn [negb]; [done|].
  change (last supportedVersionsKeys) with (Some "2.0.0").
  by destruct (_negociateVersion server fuel (Some "2.0.0") st) as [[[v|e] st1]|].
Qed.

(** X8: once [_ensureVersion] has returned a version, that version is
    stored in the client, and every later call returns it without sending
    a request. *)
Theorem ensureVersion_idempotent fuel st r st' :
  _ensureVersion server fuel st = Some (Normal r, st') →
  truthy r = true ∧ version (this st') = r ∧
  ∀ fuel', _ensureVersion server fuel' st' = Some (Normal r, st').
Proof.
  rewrite ensureVersion_unfold.
  destruct (truthy (version (this st))) eqn:Ht.
  - intros [= <- <-]. split; [done|]. split; [done|].
    intros fuel'. by rewrite ensureVersion_unfold, Ht.
  - destruct (_negociateVersion server fuel (Some "2.0.0") st)
      as [[[v|e] st1]|] eqn:Hneg; [|done..].
    intros [= <- <-].
    destruct (negociate_invariant server _ _ _ _ _ Hneg) as (_ & _ & Htruthy & _).
    split; [done|]. split; [done|].
    intros fuel'. rewrite ensureVersion_unfold.
    cbn [with_version this version]. by rewrite Htruthy.
Qed.

(** X9: when [_ensureVersion] fails, the client is left as it was, with
    no version stored: a later call negotiates again. *)
Theorem ensureVersion_failure fuel st e st' :
  _ensureVersion server fuel st = Some (Throw e, st') →
  this st' = this st ∧ truthy (version (this st')) = false.
Proof.
  rewrite ensureVersion_unfold.
  destruct (truthy (version (this st))) eqn:Ht; [done|].
  destruct (_negociateVersion server fuel (Some "2.0.0") st)
    as [[[v|e'] st1]|] eqn:Hneg; [done| |done].
  intros [= <- <-].
  destruct (negociate_invariant server _ _ _ _ _ Hneg) as (Hthis & _).
  by rewrite Hthis.
Qed.

(** X10: a client without a version resolves only to a supported
    version, and sends at most four requests to do so. *)
Theorem ensureVersion_resolves_supported fuel st r st' :
  truthy (version (this st)) = false →
  _ensureVersion server fuel st = Some (Normal r, st') →
  ∃ v, r = Some v ∧ v ∈ supportedVersionsKeys ∧
       (length (sent st') ≤ length (sent st) + 4)%nat.
Proof.
  intros Ht. rewrite ensureVersion_unfold, Ht.
  destruct (_negociateVersion server fuel (Some "2.0.0") st)
    as [[[v|e] st1]|] eqn:Hneg; [|done..].
  intros [= <- <-]. exists v. split; [done|].
  assert (Hkey : "2.0.0" ∈ supportedVersionsKeys) by key_in.
  split; [apply (negociate_outcome server _ _ _ _ _ Hkey Hneg)|].
  cbn [with_version sent]. by eapply negociate_budget.
Qed.

Lemma parseCapabilities_total fuel version xmlDoc :
  (2 ≤ fuel)%nat →
  ∃ c, supportedVersions_parseCapabilities parseCapabilities_1_1_0
         parseCapabilities_2_0_0 fuel version xmlDoc = Some c.
Proof.
  intros Hfuel. unfold supportedVersions_parseCapabilities.
  destruct version as [v|]; [|eauto].
  destruct (String.eqb v "1.0.0"); [|repeat case_match; eauto].
  destruct fuel as [|fuel]; [lia|].
  rewrite parseCapabilities_unresolved_prefix. eauto.
Qed.

(** X11: on a client that has a version, [capabilities()] sends exactly
    one request, for that version, and leaves the client as it is,
    whatever the answer. *)
Theorem capabilities_resolved fuel st r st' :
  truthy (version (this st)) = true →
  capabilities server parseCapabilities_1_1_0 parseCapabilities_2_0_0 fuel st
  = Some (r, st') →
  st' = after_probe st (version (this st)).
Proof.
  intros Ht. unfold capabilities, bind at 1, bind at 1.
  rewrite ensureVersion_unfold, Ht.
  unfold _request. fold (probe st (version (this st))).
  fold (after_probe st (version (this st))).
  destruct (server (sent st) (probe st (version (this st)))) as [xmlDoc|reason];
    [|by intros [= _ <-]].
  unfold liftR. destruct (supportedVersions_parseCapabilities _ _ _ _ _); [|done].
  by intros [= _ <-].
Qed.

(** X12: on a client without a version, [capabilities()] negotiates
    from 2.0.0 first.  When the negotiation fails, it fails with the same
    error and sends nothing more; when the negotiation returns a version,
    that version is stored and exactly one more request is sent, for that
    version. *)
Theorem capabilities_unresolved fuel st r st' :
  truthy (version (this st)) = false →
  capabilities server parseCapabilities_1_1_0 parseCapabilities_2_0_0 fuel st
  = Some (r, st') →
  (∃ e, r = Throw e ∧
        _negociateVersion server fuel (Some "2.0.0") st = Some (Throw e, st')) ∨
  (∃ v st1,
     _negociateVersion server fuel (Some "2.0.0") st = Some (Normal v, st1) ∧
     st' = after_probe (with_version st1 (Some v)) (Some v)).
Proof.
  intros Ht. unfold capabilities, bind at 1, bind at 1.
  rewrite ensureVersion_unfold, Ht.
  destruct (_negociateVersion server fuel (Some "2.0.0") st)
    as [[[v|e] st1]|]; [| |done].
  - intros Hrun. right. exists v, st1. split; [done|].
    unfold _request in Hrun.
    fold (probe (with_version st1 (Some v)) (Some v)) in Hrun.
    fold (after_probe (with_version st1 (Some v)) (Some v)) in Hrun.
    destruct (server _ _) as [xmlDoc|reason]; [|by injection Hrun as _ <-].
    unfold liftR in Hrun.
    destruct (supportedVersions_parseCapabilities _ _ _ _ _); [|done].
    by injection Hrun as _ <-.
  - intros [= <- <-]. left. eauto.
Qed.

(** X13: with four units of fuel or more [capabilities()] ends, having
    sent at most five requests. *)
Theorem capabilities_terminates fuel st :
  (4 ≤ fuel)%nat →
  ∃ r st',
    capabilities server parseCapabilities_1_1_0 parseCapabilities_2_0_0 fuel st
    = Some (r, st') ∧
    (length (sent st') ≤ length (sent st) + 5)%nat.
Proof.
  intros Hfuel.
  assert (Hfetch : ∀ st1 v, ∃ r,
            (let* xmlDoc := _request server (GetCapabilities v) in
             liftR (supportedVersions_parseCapabilities parseCapabilities_1_1_0
                      parseCapabilities_2_0_0 fuel v xmlDoc)) st1
            = Some (r, after_probe st1 v)).
  { intros st1 v. unfold bind, _request. fold (probe st1 v). fold (after_probe st1 v).
    destruct (server (sent st1) (probe st1 v)) as [xmlDoc|reason]; [|eauto].
    unfold liftR.
    destruct (parseCapabilities_total fuel v xmlDoc) as [c ->]; [lia|]. eauto. }
  unfold capabilities, bind at 1, bind at 1. rewrite ensureVersion_unfold.
  destruct (truthy (version (this st))).
  - destruct (Hfetch st (version (this st))) as [r Hr].
    unfold bind at 1 in Hr. rewrite Hr. eexists _, _. split; [done|].
    cbn [after_probe sent length]. lia.
  - destruct (settles_2_0_0 server st) as (r0 & st0 & Hall & Hlen).
    specialize (Hall (fuel - 4)%nat).
    replace (4 + (fuel - 4))%nat with fuel in Hall by lia. rewrite Hall.
    destruct r0 as [v|e].
    + destruct (Hfetch (with_version st0 (Some v)) (Some v)) as [r Hr].
      unfold bind at 1 in Hr. rewrite Hr. eexists _, _. split; [done|].
      cbn [after_probe with_version sent length]. lia.
    + eexists _, _. split; [done|]. lia.
Qed.

(** X14: when the answer to the first probe of a client without a
    version is a capabilities document of a supported version, that version
    is stored and returned after this single probe, which asks for
    2.0.0. *)
Theorem ensureVersion_single_probe fuel st root s :
  truthy (version (this st)) = false →
  server (sent st) (probe st (Some "2.0.0")) = Parsed root →
  name root = "WFS_Capabilities" →
  attr "version" root = Some s →
  s ∈ supportedVersionsKeys →
  _ensureVersion server (S fuel) st
  = Some (Normal (Some s), with_version (after_probe st (Some "2.0.0")) (Some s)).
Proof.
  intros Ht Hresp Hname Hattr Hs.
  rewrite ensureVersion_unfold, Ht.
  pose proof (supported_valid s Hs) as Hvalid.
  destruct (decide (s = "2.0.0")) as [->|Hne].
  - cbn [_negociateVersion]. unfold bind at 1. rewrite (request_parsed _ _ _ _ Hresp).
    rewrite Hname, Hattr. cbn [String.eqb Ascii.eqb Bool.eqb].
    rewrite (valid_truthy "2.0.0" Hvalid), Hvalid. cbn [negb orb].
    by rewrite bool_decide_eq_true_2.
  - rewrite (capabilities_step server fuel st (Some "2.0.0") root s); try done.
    + rewrite (in_supportedVersions_valid s Hvalid).
      by rewrite (bool_decide_eq_true_2 _ Hs).
    + congruence.
    + split_key Hs; try done;
        by erewrite semver_gt_core by (vm_compute; reflexivity).
Qed.

End Resolution.

(** ** The query, the constructor and the feature types *)

(** X15: the query of a capabilities request has exactly these
    parameters: [request] and [version] as the call gives them, every extra
    parameter of the client under another key, [service=WFS] when the
    client has no [service] parameter, and nothing else. *)
Theorem request_query_lookup (server : Server) (st : State) (version : option string) :
  ∃ c,
    _request server (GetCapabilities version) st = Some (c, after_probe st version) ∧
    ∀ k, req_query (probe st version) !! k = expected_parameter (this st) version k.
Proof.
  assert (∃ c, _request server (GetCapabilities version) st
               = Some (c, after_probe st version)) as [c Hc].
  { unfold _request. fold (probe st version). fold (after_probe st version).
    destruct (server (sent st) (probe st version)); eauto. }
  exists c. split; [exact Hc|].
  intros k. unfold probe, build_query, expected_parameter. cbn [req_query].
  destruct (String.eqb_spec k "request") as [->|Hrequest].
  { by apply lookup_union_Some_l. }
  destruct (String.eqb_spec k "version") as [->|Hversion].
  { apply lookup_union_Some_l. unfold GetCapabilities.
    rewrite lookup_insert_ne by done. by rewrite lookup_singleton_eq. }
  rewrite lookup_union_r by (by apply GetCapabilities_other).
  destruct (queryStringToAppend (this st) !! k) as [v|] eqn:Hk.
  { by apply lookup_union_Some_l. }
  rewrite lookup_union_r by done.
  destruct (String.eqb_spec k "service") as [->|Hservice].
  - by rewrite lookup_singleton_eq.
  - by rewrite lookup_singleton_ne.
Qed.

(** Without an agent class for the protocol of the URL, a constructor
    called with [maxSockets] or [keepAlive] throws. *)
Lemma constructor_agent_error {U : Url} url options :
  truthy url = true →
  truthy (opt_version options) = false →
  truthy_number (opt_maxSockets options) || truthy_boolean (opt_keepAlive options) = true →
  Agent_lookup (parseUrl_protocol (to_string url)) = None →
  Client_new url options = Throw (TypeError "Agent[protocol] is not a constructor").
Proof.
  intros Hurl Hversion Hagent Hnone. unfold Client_new.
  by rewrite Hurl, Hversion, Hagent, Hnone.
Qed.

(** X16: with a supported version in its options, and with an agent
    class for the protocol of the URL when [maxSockets] or [keepAlive] is
    set, the constructor returns a client that holds this version, and
    [capabilities()] on the new client sends a single request, whose
    version parameter is that version: no negotiation takes place. *)
Theorem pinned_client_skips_negotiation {U : Url} (url : option string) (v : string)
    (qs : option Query) (ms : option N) (ka : option bool) :
  truthy url = true →
  v ∈ supportedVersionsKeys →
  (truthy_number ms || truthy_boolean ka = true →
   is_Some (Agent_lookup (parseUrl_protocol (to_string url)))) →
  ∃ c,
    Client_new url {| opt_version := Some v; opt_queryStringToAppend := qs;
                      opt_maxSockets := ms; opt_keepAlive := ka |} = Normal c ∧
    version c = Some v ∧
    ∀ (sv : Semver) server p11 p20 fuel r st',
      capabilities server p11 p20 fuel (initial c) = Some (r, st') →
      sent st' = [probe (initial c) (Some v)] ∧
      req_query (probe (initial c) (Some v)) !! "version" = Some (Some v).
Proof.
  intros Hurl Hv Hagent.
  assert (Htruthy : truthy (Some v) = true) by (by split_key Hv).
  assert (∃ a, Client_new url {| opt_version := Some v; opt_queryStringToAppend := qs;
                                 opt_maxSockets := ms; opt_keepAlive := ka |}
               = Normal {| url := to_string url;
                           queryStringToAppend := default ∅ qs;
                           version := Some v; agent := a |}) as [a Hnew].
  { unfold Client_new. rewrite Hurl.
    cbn [negb opt_version opt_maxSockets opt_keepAlive opt_queryStringToAppend].
    rewrite Htruthy. cbn [to_string]. unfold in_supportedVersions.
    rewrite (bool_decide_eq_true_2 _ Hv). cbn [orb negb cbind].
    destruct (truthy_number ms || truthy_boolean ka); [|eauto].
    destruct Hagent as [class ->]; [done|]. eauto. }
  eexists. split; [exact Hnew|]. split; [reflexivity|].
  intros sv server p11 p20 fuel r st'.
  unfold capabilities, bind at 1, bind at 1, _ensureVersion, bind at 1, ret.
  cbn [initial this version]. rewrite Htruthy. cbn [negb].
  unfold _request.
  destruct (server _ _) as [xmlDoc|reason].
  + unfold liftR. destruct (supportedVersions_parseCapabilities _ _ _ _ _); [|done].
    intros [= _ <-]. split; [done|].
    unfold probe, build_query. cbn [req_query].
    apply lookup_union_Some_l. unfold GetCapabilities.
    rewrite lookup_insert_ne by done. by rewrite lookup_singleton_eq.
  + intros [= _ <-]. split; [done|].
    unfold probe, build_query. cbn [req_query].
    apply lookup_union_Some_l. unfold GetCapabilities.
    rewrite lookup_insert_ne by done. by rewrite lookup_singleton_eq.
Qed.

(** X19: what [featureTypes()] returns is never falsy: it is the
    [featureTypes] property of what [capabilities()] returned when that
    property is truthy, and the empty list otherwise; and [featureTypes()]
    sends no request of its own. *)
Theorem featureTypes_result {sv : Semver} server p11 p20 fuel st v st' :
  featureTypes server p11 p20 fuel st = Some (Normal v, st') →
  ∃ caps property,
    capabilities server p11 p20 fuel st = Some (Normal caps, st') ∧
    js_member caps "featureTypes" = Normal property ∧
    js_truthy v = true ∧
    v = (if js_truthy property then property else JArray []).
Proof.
  unfold featureTypes, bind, lift, ret.
  destruct (capabilities server p11 p20 fuel st) as [[[caps|e] st1]|]; [|done..].
  destruct (js_member caps "featureTypes") as [ft|e] eqn:Hmember; [|done].
  intros [= <- <-]. exists caps, ft. split; [done|]. split; [done|].
  unfold js_or. destruct (js_truthy ft) eqn:Hft.
  - split; [exact Hft | reflexivity].
  - split; reflexivity.
Qed.

(** *** The same properties on sample runs *)

Lemma negociate_terminates_witness :
  settles_within (sv := core_semver) (always (Parsed ServiceExceptionReport))
    (length supportedVersionsKeys + 1) (Some "2.0.0") (initial example_client).
Proof.
  apply (negociate_terminates (laws := core_semver_laws)). key_in.
Defined.

Lemma negociate_result_supported_witness :
  "1.1.0" ∈ supportedVersionsKeys ∧
  semver_gt (sv := core_semver) (Some "1.1.0") (Some "2.0.0") = Normal false.
Proof.
  apply (negociate_result_supported (laws := core_semver_laws)
           (always (Parsed (WFS_Capabilities (Some "1.1.0") []))) 1 "2.0.0"
           (initial example_client) "1.1.0"
           (after_probe (initial example_client) (Some "2.0.0"))).
  - key_in.
  - vm_compute; reflexivity.
Defined.

Lemma negociate_failure_kinds_witness : negotiation_failure RecoveryExhausted.
Proof.
  apply (negociate_failure_kinds (laws := core_semver_laws)
           (always (Parsed ServiceExceptionReport)) 3 "2.0.0"
           (initial example_client) RecoveryExhausted
           (after_probe (after_probe (after_probe (initial example_client)
              (Some "2.0.0")) (Some "1.1.0")) (Some "1.0.0"))).
  - key_in.
  - vm_compute; reflexivity.
Defined.

Lemma negociate_candidates_descend_witness :
  ∃ cs,
    sent (after_probe (after_probe (after_probe (after_probe (initial example_client)
            (Some "2.0.0")) (Some "1.1.0")) (Some "1.0.0")) None)
    = (rev (probe (initial example_client) <$> (Some "2.0.0" :: cs))
       ++ sent (initial example_client))%list ∧
    descending (sv := core_semver) (Some "2.0.0" :: cs).
Proof.
  apply (negociate_candidates_descend (laws := core_semver_laws)
           (scripted ["1.5.0"; "1.0.5"] "0.9.0") 4 "2.0.0" (initial example_client)
           (Throw (TypeError "Invalid Version: undefined"))).
  - key_in.
  - vm_compute; reflexivity.
Defined.

Lemma negociate_match_witness :
  _negociateVersion (sv := core_semver)
    (always (Parsed (WFS_Capabilities (Some "2.0.0") []))) 1
    (Some "2.0.0") (initial example_client)
  = Some (Normal "2.0.0", after_probe (initial example_client) (Some "2.0.0")).
Proof.
  apply (negociate_match (laws := core_semver_laws)
           (always (Parsed (WFS_Capabilities (Some "2.0.0") []))) 0
           (initial example_client) "2.0.0" (WFS_Capabilities (Some "2.0.0") [])).
  - reflexivity.
  - reflexivity.
  - reflexivity.
  - vm_compute; reflexivity.
Defined.

Lemma negociate_sends_probes_witness :
  this (after_probe (after_probe (initial example_client) (Some "2.0.0")) (Some "1.0.0"))
  = this (initial example_client) ∧
  ∃ cs,
    sent (after_probe (after_probe (initial example_client) (Some "2.0.0")) (Some "1.0.0"))
    = (rev (probe (initial example_client) <$> (Some "2.0.0" :: cs))
       ++ sent (initial example_client))%list.
Proof.
  apply (negociate_sends_probes (sv := core_semver) (scripted ["1.0.5"] "1.0.0") 2
           (Some "2.0.0") (initial example_client) (Normal "1.0.0")).
  vm_compute; reflexivity.
Defined.

Lemma negociate_result_reported_witness :
  truthy (Some "1.0.0") = true ∧
  semver_valid (Semver := core_semver) "1.0.0" = true ∧
  ∃ request earlier root,
    sent (after_probe (after_probe (initial example_client) (Some "2.0.0")) (Some "1.0.0"))
    = request :: earlier ∧
    scripted ["1.0.5"] "1.0.0" earlier request = Parsed root ∧
    name root = "WFS_Capabilities" ∧ attr "version" root = Some "1.0.0".
Proof.
  apply (negociate_result_reported (sv := core_semver) (scripted ["1.0.5"] "1.0.0") 2
           (Some "2.0.0") (initial example_client)).
  vm_compute; reflexivity.
Defined.

Lemma ensureVersion_idempotent_witness :
  truthy (Some "1.1.0") = true ∧
  version (this (with_version (after_probe (initial example_client) (Some "2.0.0"))
                   (Some "1.1.0"))) = Some "1.1.0" ∧
  ∀ fuel',
    _ensureVersion (sv := core_semver)
      (always (Parsed (WFS_Capabilities (Some "1.1.0") []))) fuel'
      (with_version (after_probe (initial example_client) (Some "2.0.0")) (Some "1.1.0"))
    = Some (Normal (Some "1.1.0"),
            with_version (after_probe (initial example_client) (Some "2.0.0"))
              (Some "1.1.0")).
Proof.
  apply (ensureVersion_idempotent (sv := core_semver)
           (always (Parsed (WFS_Capabilities (Some "1.1.0") []))) 1
           (initial example_client)).
  vm_compute; reflexivity.
Defined.

Lemma ensureVersion_failure_witness :
  this (after_probe (initial example_client) (Some "2.0.0")) = this (initial example_client) ∧
  truthy (version (this (after_probe (initial example_client) (Some "2.0.0")))) = false.
Proof.
  apply (ensureVersion_failure (sv := core_semver)
           (always (Parsed (WFS_Capabilities (Some "3.0.0") []))) 1
           (initial example_client) (NoOverlap "3.0.0" "2.0.0")).
  vm_compute; reflexivity.
Defined.

Lemma ensureVersion_resolves_supported_witness :
  ∃ v, Some "1.1.0" = Some v ∧ v ∈ supportedVersionsKeys ∧
       (length (sent (with_version (after_probe (initial example_client) (Some "2.0.0"))
                        (Some "1.1.0")))
        ≤ length (sent (initial example_client)) + 4)%nat.
Proof.
  apply (ensureVersion_resolves_supported (laws := core_semver_laws)
           (always (Parsed (WFS_Capabilities (Some "1.1.0") []))) 1
           (initial example_client)).
  - reflexivity.
  - vm_compute; reflexivity.
Defined.

Lemma capabilities_resolved_witness :
  after_probe (initial pinned_1_1_0) (Some "1.1.0")
  = after_probe (initial pinned_1_1_0) (version (this (initial pinned_1_1_0))).
Proof.
  apply (capabilities_resolved (sv := core_semver)
           (always (Parsed (WFS_Capabilities (Some "1.1.0") [])))
           sample_module no_module 2 (initial pinned_1_1_0)
           (Normal (sample_module (WFS_Capabilities (Some "1.1.0") [])))).
  - reflexivity.
  - vm_compute; reflexivity.
Defined.

Lemma capabilities_unresolved_witness :
  (∃ e, Normal (sample_module (WFS_Capabilities (Some "1.1.0") [])) = Throw e ∧
        _negociateVersion (sv := core_semver)
          (always (Parsed (WFS_Capabilities (Some "1.1.0") []))) 2
          (Some "2.0.0") (initial example_client)
        = Some (Throw e,
                after_probe (with_version (after_probe (initial example_client)
                               (Some "2.0.0")) (Some "1.1.0")) (Some "1.1.0"))) ∨
  (∃ v st1,
     _negociateVersion (sv := core_semver)
       (always (Parsed (WFS_Capabilities (Some "1.1.0") []))) 2
       (Some "2.0.0") (initial example_client)
     = Some (Normal v, st1) ∧
     after_probe (with_version (after_probe (initial example_client) (Some "2.0.0"))
                    (Some "1.1.0")) (Some "1.1.0")
     = after_probe (with_version st1 (Some v)) (Some v)).
Proof.
  apply (capabilities_unresolved (sv := core_semver)
           (always (Parsed (WFS_Capabilities (Some "1.1.0") [])))
           sample_module no_module 2 (initial example_client)).
  - reflexivity.
  - vm_compute; reflexivity.
Defined.

Lemma capabilities_terminates_witness :
  ∃ r st',
    capabilities (sv := core_semver) (scripted ["1.5.0"; "1.0.5"] "0.9.0")
      no_module no_module 4 (initial example_client)
    = Some (r, st') ∧
    (length (sent st') ≤ length (sent (initial example_client)) + 5)%nat.
Proof.
  apply (capabilities_terminates (laws := core_semver_laws)). lia.
Defined.

Lemma ensureVersion_single_probe_witness :
  _ensureVersion (sv := core_semver) (always (Parsed empty_capabilities)) 1
    (initial example_client)
  = Some (Normal (Some "1.0.0"),
          with_version (after_probe (initial example_client) (Some "2.0.0")) (Some "1.0.0")).
Proof.
  apply (ensureVersion_single_probe (laws := core_semver_laws)
           (always (Parsed empty_capabilities)) 0 (initial example_client)
           empty_capabilities "1.0.0").
  - reflexivity.
  - reflexivity.
  - reflexivity.
  - reflexivity.
  - key_in.
Defined.

Lemma pinned_client_skips_negotiation_witness :
  ∃ c,
    Client_new (U := scheme_url) (Some "http://example.org/wfs")
      {| opt_version := Some "1.1.0"; opt_queryStringToAppend := None;
         opt_maxSockets := Some 4%N; opt_keepAlive := Some true |} = Normal c ∧
    version c = Some "1.1.0" ∧
    ∀ (sv : Semver) server p11 p20 fuel r st',
      capabilities server p11 p20 fuel (initial c) = Some (r, st') →
      sent st' = [probe (initial c) (Some "1.1.0")] ∧
      req_query (probe (initial c) (Some "1.1.0")) !! "version" = Some (Some "1.1.0").
Proof.
  apply (pinned_client_skips_negotiation (U := scheme_url)
           (Some "http://example.org/wfs") "1.1.0" None (Some 4%N) (Some true)).
  - reflexivity.
  - key_in.
  - intros _. vm_compute. eauto.
Defined.

Lemma constructor_rejects_unsupported_witness :
  Client_new (U := scheme_url) (Some "http://example.org/wfs")
    {| opt_version := Some "3.0.0"; opt_queryStringToAppend := None;
       opt_maxSockets := None; opt_keepAlive := None |}
  = Throw (Error "Version not supported by client").
Proof.
  apply (constructor_rejects_unsupported (U := scheme_url)
           (Some "http://example.org/wfs") "3.0.0" None None None).
  - reflexivity.
  - reflexivity.
  - apply (bool_decide_eq_false_1 _); vm_compute; reflexivity.
  - apply (bool_decide_eq_false_1 _); vm_compute; reflexivity.
Defined.

Lemma constructor_pinned_version_witness :
  "1.1.0" ∈ supportedVersionsKeys ∨ "1.1.0" ∈ Object_prototype_keys.
Proof.
  apply (constructor_pinned_version (U := scheme_url) (Some "https://example.org/wfs")
           {| opt_version := Some "1.1.0"; opt_queryStringToAppend := None;
              opt_maxSockets := None; opt_keepAlive := Some true |}
           {| url := "https://example.org/wfs"; queryStringToAppend := ∅;
              version := Some "1.1.0";
              agent := Some {| agent_class := HttpsAgent; agent_maxSockets := None;
                               agent_keepAlive := Some true |} |} "1.1.0").
  - vm_compute; reflexivity.
  - reflexivity.
Defined.

Lemma featureTypes_result_witness :
  ∃ caps property,
    capabilities (sv := core_semver)
      (always (Parsed (WFS_Capabilities (Some "1.1.0") [])))
      sample_module no_module 2 (initial pinned_1_1_0)
    = Some (Normal caps, after_probe (initial pinned_1_1_0) (Some "1.1.0")) ∧
    js_member caps "featureTypes" = Normal property ∧
    js_truthy two_featureTypes = true ∧
    two_featureTypes = (if js_truthy property then property else JArray []).
Proof.
  apply (featureTypes_result (sv := core_semver)
           (always (Parsed (WFS_Capabilities (Some "1.1.0") [])))
           sample_module no_module 2 (initial pinned_1_1_0) two_featureTypes).
  vm_compute; reflexivity.
Defined.

Lemma negociate_steps_below_detected_witness :
  ∃ next,
    largest_below (sv := core_semver) "1.0.5" next ∧
    _negociateVersion (sv := core_semver) (scripted ["1.0.5"] "1.0.0") 2
      (Some "2.0.0") (initial example_client)
    = _negociateVersion (sv := core_semver) (scripted ["1.0.5"] "1.0.0") 1
        (Some next) (after_probe (initial example_client) (Some "2.0.0")) ∧
    ("1.0.5" = "1.0.5" → next = "1.0.0") ∧
    ∃ r st' cs,
      (∀ fuel', (5 ≤ fuel')%nat →
         _negociateVersion (sv := core_semver) (scripted ["1.0.5"] "1.0.0") fuel'
           (Some "2.0.0") (initial example_client) = Some (r, st')) ∧
      sent st' = (rev (probe (initial example_client) <$> (Some "2.0.0" :: Some next :: cs))
                  ++ sent (initial example_client))%list.
Proof.
  apply (negociate_steps_below_detected (laws := core_semver_laws)
           (scripted ["1.0.5"] "1.0.0") 1 (initial example_client) (Some "2.0.0")
           (WFS_Capabilities (Some "1.0.5") []) "1.0.5").
  - reflexivity.
  - reflexivity.
  - reflexivity.
  - vm_compute; reflexivity.
  - vm_compute; reflexivity.
  - apply (bool_decide_eq_false_1 _); vm_compute; reflexivity.
  - exists "1.0.0". split; [key_in | vm_compute; reflexivity].
Defined.
